(* ===== verification/_CoqProject ===== *)
-Q . S2P
Prelude.v
PyStr.v
Sampler.v
Paragraphs.v
Tokenizer.v
Detokenizer.v
Roundtrip.v
Chain.v
Generator.v
GenStep.v
Driver.v
