(* ===== verification/Prelude.v ===== *)
(** * A verified model of markov-mimic ([src/markov.py])

    The program builds an n-gram Markov model from text and samples new
    text from it.  Its parts, in [src/markov.py], and the file of this
    development that models each one:

    - [choice] (lines 4-13), the weighted sampler: [Sampler.v].  The
      random draw [randrange(total)] is the one call into Python's
      [random] module; it is the interface [Sampler.RandomSource], a
      class whose single law is that a draw lies in [[0, n)].  The
      instance [Sampler.replay_source] replays a list of draws, so every run of
      the model is a computation that [vm_compute] evaluates.
    - [get_paragraphs] (lines 15-23), the paragraph splitter:
      [Paragraphs.v].  The generator's buffer [paragraph] is the
      accumulator of [Paragraphs.get_paragraphs_from].
    - [clause_parts], [simplify], [tokenize] (lines 25-40), the
      tokenizer: [Tokenizer.v].
    - [join] (lines 42-49), the detokenizer: [Detokenizer.v].
    - [MarkovChain.__init__] and [process_input] (lines 51-63), the
      frequency table and its ingestion: [Chain.v].  The
      [defaultdict(lambda: defaultdict(int))] is a stdpp [gmap] from
      contexts to successor lists; a successor list is an association
      list in insertion order, because that order is the order in which
      [choice] scans the successors (Python dicts iterate in insertion
      order).  The start marker [None] is [None : option string].
    - [MarkovChain.get] and [output] (lines 65-78), the generator:
      [Generator.v].  [get] reads [self.table[prefix]] through the
      defaultdict, which inserts an empty successor map for an unseen
      context: the model threads the table through every call.
      [GenStep.v] reads the [while] loop as the small-step relation
      [GenStep.loop_step], on which its invariants are proved by rule
      induction.
    - The Python string methods the code calls ([str.split],
      [str.strip], [str.endswith], [in], [str.join]) are modelled on
      ASCII strings in [PyStr.v]; they are library code, not part of the
      repository, and carry no map entries.
    - Lines 81-90, the driver script: [Driver.v].  [build_model] is
      lines 81-87 (an order-3 model, the first source once, the second
      three times) and [main] is lines 81-90, which returns the text
      printed or the [RecursionError] raised.  Opening a file is I/O: a
      source is the list of lines its file object yields, and the
      ["\n"] each line keeps is proved not to matter.

    This file, [Prelude.v], holds what the components share: the scope
    [markov_scope], the hint databases [markov] and [markov_rw], the tactic [in_list_cases], and
    lemmas on integer ranges and sliding windows.

    ** Plan and theorems

    The components are modelled leaf first, in the order of the data
    flow, and [_CoqProject] lists them in that order: Prelude, PyStr,
    Sampler, Paragraphs, Tokenizer, Detokenizer, Roundtrip, Chain,
    Generator, GenStep, Driver.  Each file declares its definitions first and its
    theorems after them; the witnesses that run each theorem on a
    concrete input close the file.  The groups of theorems:

    - Sampler: the draw [choice] returns [None] exactly when the total
      weight is not positive, and then consumes no randomness; with
      non-negative weights and a positive total it returns an item of
      positive weight (the scan never falls off the end); and the number
      of draws in [[0, total)] that select [x] is the weight of [x],
      which is the abstract specification "probability proportional to
      weight" stated without real numbers.
    - Paragraphs: [get_paragraphs] equals a reference definition
      (split at blank lines, keep the groups that a blank line closes,
      drop empty ones); a trailing paragraph with no blank line after it
      is dropped.
    - Tokenizer: tokens never contain whitespace; [clause_parts] strips
      the punctuation from both ends of a chunk and renders [--] with
      spaces around it (findings below).
    - Detokenizer: at every position [join] puts one space before a
      token unless the substring test takes it for punctuation, and it
      treats every substring of [":;!,."], the empty token included,
      as punctuation.
    - Roundtrip ([Roundtrip.v]): on sequences of plain words each
      optionally followed by one punctuation mark, with dash tokens
      ["--"] among them (the inductive [Roundtrip.group]),
      [tokenize (join ws) = ws]: the tokenizer inverts the detokenizer.
      And [tokenize] strips double quotes only after it has split off
      punctuation, so a mark inside closing quotes stays attached to
      its word.
    - Chain: the table invariant (successor counts are at least 1,
      successor keys are distinct, contexts have [order] entries) is
      preserved by ingestion and by generation; ingestion refines the
      abstract n-gram multiset: after [process_input] the count of
      [(context, word)] grows by the number of occurrences of that
      n-gram in the paragraphs, each paragraph windowed from [order]
      start markers.  Corollaries: ingesting twice doubles every count;
      ingestion of text that ends in a blank line composes; ingesting
      two texts in either order gives the same counts; an order-0 chain
      counts like an order-1 chain.  The tables are compared up to
      [table_equiv] (notation [≃]), under which an absent context and
      one mapped to no successors are the same, as they are through
      the defaultdict; every operation is [Proper] for it.
    - Generator: with enough fuel [output] returns, exactly when the
      requested length is 0 or the start context has successors, and
      it never returns otherwise (Python's [RecursionError]); the text
      it returns is made of segments whose lengths add up to the
      requested length, each segment a walk through observed n-grams;
      the only change to the table is the insertion of empty entries
      for contexts read, and [output] gives the same text on equivalent
      tables.  The example [ingestion_order_observable] shows that
      ingestion order, which the counts do not see, is observable
      through the successor order that [choice] scans.
    - GenStep: the small-step machine of the [while] loop halts within
      [left + 1] steps and keeps, in every reachable state, the table
      invariant and the walk invariant (rule induction).
    - Driver: the model the script builds counts the first source's
      n-grams once and the second's three times; lines ending in
      ["\n"] build the same table; the
      recursion of [output(length)] is at most [max 1 length] calls
      deep, and a source of one-word paragraphs reaches that depth, so
      with any recursion limit below 5000 nested calls (CPython's
      default is 1000 frames) the script raises [RecursionError]; with
      a live start context and a limit of 5000 it prints.

    ** Fuel

    [Generator.output] recurses once per dead end and Python bounds that
    recursion only by its stack; the model takes a fuel argument.  Every
    recursive call but a diverging one emits at least one token, so
    [length + 1] units of fuel suffice, and this is proved.
    [Driver.output_depth_bound] sharpens the bound to [max 1 length],
    and it is reached.  In [Driver.main] the fuel is the interpreter's
    recursion limit, a parameter, since the number of frames CPython
    allows depends on the frames below [output].  All other recursion
    in the model is structural.

    ** Not modelled

    Unicode: strings are Stdlib [string]s of ASCII characters, and
    [str.isspace] is modelled on ASCII (the characters 9-13, 28-31, 32).
    The concrete pseudo-random generator of Python's [random] module
    is not modelled: theorems quantify over every [RandomSource].
    Opening and reading the files (lines 83 and 86) and writing to
    standard output are I/O: the model takes the lines read and returns
    the text written. *)

From Stdlib Require Import ZArith Lia Ascii String.
From stdpp Require Import base list.

Declare Scope markov_scope.
Delimit Scope markov_scope with markov.

Create HintDb markov.
Create Rewrite HintDb markov_rw.

(** [H : In x [a; b; ...]] over a concrete list: close the goal for
    each element with [tac] (after substituting the element when [x]
    is a variable); the final case [False] is absurd. *)
Ltac in_list_cases H tac :=
  simpl in H; repeat (let E := fresh "E" in destruct H as [E|H]; [try subst; tac|]); done.

(** ** Definitions *)

(** [zrange n] lists the integers [0, 1, ..., n-1]: every value that
    [randrange(n)] may return. *)
Definition zrange (n : Z) : list Z := map Z.of_nat (seq 0 (Z.to_nat n)).

(** [intersperse sep l]: [sep] between consecutive elements. *)
Fixpoint intersperse {A} (sep : A) (l : list A) : list A :=
  match l with
  | [] => []
  | [x] => [x]
  | x :: l' => x :: sep :: intersperse sep l'
  end.

(** [prefix[1:] + [word]]: the context update of [process_input] and
    [output]. *)
Definition slide {A} (ctx : list A) (x : A) : list A := tail ctx ++ [x].

(** The last [k] elements of a list. *)
Definition lastn {A} (k : nat) (l : list A) : list A := drop (length l - k) l.

(** ** Integer ranges: the draws of [random.randrange(n)] *)

Lemma map_seq_shift (k n : nat) :
  map Z.of_nat (seq k n) = map (Z.add (Z.of_nat k)) (map Z.of_nat (seq 0 n)).
Proof.
  revert k. induction n as [|n IH]; intros k; [done|].
  simpl. rewrite IH, (IH 1%nat), !map_map. f_equal; [lia|].
  apply map_ext. intros. lia.
Qed.

Lemma zrange_app (a b : Z) :
  (0 <= a)%Z -> (0 <= b)%Z ->
  zrange (a + b) = zrange a ++ map (Z.add a) (zrange b).
Proof.
  intros Ha Hb. unfold zrange.
  rewrite Z2Nat.inj_add by lia. rewrite seq_app, map_app. f_equal.
  rewrite Nat.add_0_l, map_seq_shift, Z2Nat.id by lia. done.
Qed.

Lemma elem_of_zrange (n c : Z) : c ∈ zrange n <-> (0 <= c < n)%Z.
Proof.
  unfold zrange. rewrite list_elem_of_fmap. split.
  - intros (k & -> & Hk). apply elem_of_seq in Hk. lia.
  - intros Hc. exists (Z.to_nat c). rewrite elem_of_seq. lia.
Qed.

Lemma length_zrange (n : Z) : length (zrange n) = Z.to_nat n.
Proof. unfold zrange. by rewrite length_map, length_seq. Qed.

(** ** Counting the elements of a list that satisfy a test *)

Lemma count_map {X Y} (f : Y -> bool) (g : X -> Y) (l : list X) :
  length (List.filter f (map g l)) = length (List.filter (fun x => f (g x)) l).
Proof. induction l as [|x l IH]; simpl; [done|]. destruct (f (g x)); simpl; lia. Qed.

Lemma count_all {X} (f : X -> bool) (l : list X) :
  (forall x, In x l -> f x = true) -> length (List.filter f l) = length l.
Proof.
  induction l as [|x l IH]; intros Hl; simpl; [done|].
  rewrite Hl by (left; done). simpl. rewrite IH; [done|]. intros y Hy. apply Hl. by right.
Qed.

Lemma count_none {X} (f : X -> bool) (l : list X) :
  (forall x, In x l -> f x = false) -> length (List.filter f l) = 0%nat.
Proof.
  induction l as [|x l IH]; intros Hl; simpl; [done|].
  rewrite Hl by (left; done). apply IH. intros y Hy. apply Hl. by right.
Qed.

(** ** Sliding windows: [prefix[1:] + [word]] *)

Lemma length_slide {A} (ctx : list A) (x : A) :
  ctx <> [] -> length (slide ctx x) = length ctx.
Proof. unfold slide. destruct ctx; simpl; [done|]. rewrite length_app. simpl. lia. Qed.

Lemma length_lastn {A} (k : nat) (l : list A) : k <= length l -> length (lastn k l) = k.
Proof. intros Hk. unfold lastn. rewrite length_drop. lia. Qed.

Lemma lastn_all {A} (l : list A) : lastn (length l) l = l.
Proof. unfold lastn. by rewrite Nat.sub_diag. Qed.

Lemma tail_drop {A} (n : nat) (l : list A) : tail (drop n l) = drop (S n) l.
Proof. revert l. induction n as [|n IH]; intros [|x l]; simpl; auto. Qed.

(** Sliding a full window is taking the last [k] of the longer history. *)
Lemma slide_lastn {A} (k : nat) (l : list A) (x : A) :
  1 <= k <= length l -> slide (lastn k l) x = lastn k (l ++ [x]).
Proof.
  intros Hk. unfold slide, lastn. rewrite tail_drop, length_app. simpl.
  replace (length l + 1 - k) with (S (length l - k)) by lia.
  rewrite drop_app_le by lia. done.
Qed.

#[export] Hint Resolve length_slide : markov.
#[export] Hint Rewrite length_zrange : markov_rw.
