(* ===== verification/PyStr.v ===== *)
(** * Python's string methods, on ASCII strings

    The code of [src/markov.py] calls [str.split()], [str.split(sep)],
    [sep.join(parts)], [str.strip(chars)], [str.endswith(suffix)] and
    the substring test [a in b].  This file models each of them as a
    function on Stdlib [string]s, with the lemmas the components use.
    These are Python's built-ins, not code of the repository. *)

From Stdlib Require Import ZArith Lia Ascii String.
From stdpp Require Import base list strings.
From S2P Require Import Prelude.

Local Open Scope string_scope.
Local Open Scope list_scope.

(** stdpp declares [append] [simpl never]; these proofs compute with it. *)
#[local] Arguments append : simpl nomatch.

(** ** Characters *)

(** [str.isspace] on one ASCII character: tab, line feed, vertical tab,
    form feed, carriage return, the four separators 28-31, space. *)
Definition is_space (c : ascii) : bool :=
  (let n := nat_of_ascii c in
  ((9 <=? n) && (n <=? 13)) || ((28 <=? n) && (n <=? 32)))%nat.

(** Every character of [s] satisfies [p]. *)
Fixpoint str_forall (p : ascii -> bool) (s : string) : bool :=
  match s with
  | EmptyString => true
  | String c s' => p c && str_forall p s'
  end.

(** [s] contains no whitespace character. *)
Definition no_space (s : string) : bool := str_forall (fun c => negb (is_space c)) s.

(** The one-character string [c]. *)
Definition chr (c : ascii) : string := String c EmptyString.

(** ** [str.split()]: split at runs of whitespace *)

(** [cur] is the chunk read so far; a whitespace character ends it, and
    empty chunks are never produced. *)
Fixpoint split_ws_from (cur : string) (s : string) : list string :=
  match s with
  | EmptyString => if String.eqb cur "" then [] else [cur]
  | String c s' =>
      if is_space c
      then (if String.eqb cur "" then split_ws_from "" s'
            else cur :: split_ws_from "" s')
      else split_ws_from (cur +:+ chr c) s'
  end.

Definition split_ws (s : string) : list string := split_ws_from "" s.

(** ** [s.split("--")]: split at each non-overlapping ["--"], left to right *)

Fixpoint split_dash_from (cur : string) (s : string) : list string :=
  match s with
  | EmptyString => [cur]
  | String c rest =>
      match rest with
      | EmptyString => [cur +:+ chr c]
      | String c' rest' =>
          if Ascii.eqb c "-" && Ascii.eqb c' "-"
          then cur :: split_dash_from "" rest'
          else split_dash_from (cur +:+ chr c) rest
      end
  end.

Definition split_dash (s : string) : list string := split_dash_from "" s.

(** ** [sep.join(parts)] *)

Fixpoint py_join (sep : string) (parts : list string) : string :=
  match parts with
  | [] => ""
  | [x] => x
  | x :: parts' => x +:+ sep +:+ py_join sep parts'
  end.

(** ** [s.strip(chars)]: remove the characters satisfying [p] at both ends *)

Fixpoint lstrip_by (p : ascii -> bool) (s : string) : string :=
  match s with
  | EmptyString => EmptyString
  | String c s' => if p c then lstrip_by p s' else s
  end.

Fixpoint rstrip_by (p : ascii -> bool) (s : string) : string :=
  match s with
  | EmptyString => EmptyString
  | String c s' =>
      match rstrip_by p s' with
      | EmptyString => if p c then EmptyString else chr c
      | r => String c r
      end
  end.

Definition strip_by (p : ascii -> bool) (s : string) : string :=
  rstrip_by p (lstrip_by p s).

(** [s.strip(sym)] for a one-character argument. *)
Definition strip_char (sym : ascii) (s : string) : string :=
  strip_by (fun c => Ascii.eqb c sym) s.

(** [s.strip()] *)
Definition strip_ws (s : string) : string := strip_by is_space s.

(** ** [s.endswith(sym)] for a one-character suffix *)

Fixpoint endswith (s : string) (sym : ascii) : bool :=
  match s with
  | EmptyString => false
  | String c EmptyString => Ascii.eqb c sym
  | String _ s' => endswith s' sym
  end.

(** ** [needle in hay]: the substring test *)

Fixpoint str_in (needle hay : string) : bool :=
  String.prefix needle hay ||
  match hay with
  | EmptyString => false
  | String _ hay' => str_in needle hay'
  end.

(** ** Lemmas *)

Lemma string_app_assoc (a b c : string) : (a +:+ b) +:+ c = a +:+ (b +:+ c).
Proof. induction a as [|x a IH]; simpl; [done|]. by rewrite IH. Qed.

Lemma string_app_nil_r (a : string) : a +:+ "" = a.
Proof. induction a as [|x a IH]; simpl; [done|]. by rewrite IH. Qed.

Lemma str_forall_app (p : ascii -> bool) (a b : string) :
  str_forall p (a +:+ b) = str_forall p a && str_forall p b.
Proof. induction a as [|x a IH]; simpl; [done|]. by rewrite IH, andb_assoc. Qed.

#[export] Hint Rewrite string_app_assoc string_app_nil_r str_forall_app : markov_rw.

Lemma string_eqb_nil (s : string) : String.eqb s "" = true <-> s = "".
Proof. apply String.eqb_eq. Qed.

(** Splitting at a whitespace character distributes over [str.split()]. *)
Lemma split_ws_from_app_space (cur a b : string) (sp : ascii) :
  is_space sp = true ->
  split_ws_from cur (a +:+ String sp b) = split_ws_from cur a ++ split_ws b.
Proof.
  intros Hsp. revert cur. induction a as [|c a IH]; intros cur; simpl.
  - rewrite Hsp. by destruct (String.eqb cur "").
  - destruct (is_space c); [destruct (String.eqb cur "")|]; rewrite ?IH; done.
Qed.

Lemma split_ws_app_space (a b : string) (sp : ascii) :
  is_space sp = true -> split_ws (a +:+ String sp b) = split_ws a ++ split_ws b.
Proof. apply split_ws_from_app_space. Qed.

(** A whitespace-free string splits into itself (or nothing, if empty). *)
Lemma split_ws_from_no_space (cur w : string) :
  no_space w = true ->
  split_ws_from cur w = if String.eqb (cur +:+ w) "" then [] else [cur +:+ w].
Proof.
  revert cur. induction w as [|c w IH]; intros cur Hw; simpl.
  - by rewrite string_app_nil_r.
  - apply andb_prop in Hw as [Hc Hw]. apply negb_true_iff in Hc.
    rewrite Hc, IH by done. unfold chr. by rewrite string_app_assoc.
Qed.

Lemma split_ws_no_space (w : string) :
  no_space w = true -> split_ws w = if String.eqb w "" then [] else [w].
Proof. apply split_ws_from_no_space. Qed.

(** Every piece [str.split()] returns is non-empty and has no whitespace. *)
Lemma split_ws_from_pieces (cur s : string) :
  no_space cur = true ->
  Forall (fun w => w <> "" /\ no_space w = true) (split_ws_from cur s).
Proof.
  revert cur. induction s as [|c s IH]; intros cur Hcur; simpl.
  - destruct (String.eqb cur "") eqn:E; constructor; [|done].
    split; [|done]. intros ->. done.
  - destruct (is_space c) eqn:Hc.
    + destruct (String.eqb cur "") eqn:E; [by apply IH|].
      constructor; [|by apply IH]. split; [|done]. intros ->. done.
    + apply IH. unfold no_space in *. rewrite str_forall_app, Hcur. simpl. by rewrite Hc.
Qed.

Lemma split_ws_pieces (s : string) :
  Forall (fun w => w <> "" /\ no_space w = true) (split_ws s).
Proof. by apply split_ws_from_pieces. Qed.

(** Stripping keeps a property that every character has. *)
Lemma str_forall_lstrip p q s : str_forall p s = true -> str_forall p (lstrip_by q s) = true.
Proof.
  induction s as [|c s IH]; simpl; [done|]. intros Hs.
  destruct (q c); [|done]. apply IH. by apply andb_prop in Hs as [_ Hs].
Qed.

Lemma str_forall_rstrip p q s : str_forall p s = true -> str_forall p (rstrip_by q s) = true.
Proof.
  induction s as [|c s IH]; simpl; [done|]. intros [Hc Hs]%andb_prop.
  destruct (rstrip_by q s) eqn:E.
  - destruct (q c); simpl; by rewrite ?Hc.
  - simpl in *. rewrite Hc. by apply IH.
Qed.

Lemma str_forall_strip p q s : str_forall p s = true -> str_forall p (strip_by q s) = true.
Proof. intros Hs. by apply str_forall_rstrip, str_forall_lstrip. Qed.

(** A leading character that [strip] removes does not change the result. *)
Lemma strip_by_cons p c s : p c = true -> strip_by p (String c s) = strip_by p s.
Proof. intros Hc. unfold strip_by. simpl. by rewrite Hc. Qed.

Lemma endswith_cons c s sym : s <> "" -> endswith (String c s) sym = endswith s sym.
Proof. by destruct s. Qed.

(** Pieces of [s.split("--")] are made of characters of [s]. *)
Lemma split_dash_from_forall p cur s :
  str_forall p cur = true -> str_forall p s = true ->
  Forall (fun w => str_forall p w = true) (split_dash_from cur s).
Proof.
  remember (String.length s) as n eqn:Hn. revert cur s Hn.
  induction n as [n IH] using lt_wf_ind.
  intros cur [|c [|c' s]] -> Hcur Hs; simpl in *.
  - by constructor.
  - constructor; [|done]. by rewrite str_forall_app, Hcur.
  - apply andb_prop in Hs as [Hc Hs]. apply andb_prop in Hs as [Hc' Hs].
    destruct (Ascii.eqb c "-" && Ascii.eqb c' "-").
    + constructor; [done|]. by apply (IH (String.length s)); [lia|..].
    + refine (IH (S (String.length s)) _ (cur +:+ chr c) (String c' s) eq_refl _ _); [lia|..].
      * by rewrite str_forall_app, Hcur; simpl; rewrite Hc.
      * simpl. by rewrite Hc', Hs.
Qed.

(** [" -- ".join(parts).split()] on whitespace-free parts: the parts with
    a ["--"] between each two, the empty parts left out. *)
Lemma split_ws_py_join_dash (ps : list string) :
  Forall (fun w => no_space w = true) ps ->
  split_ws (py_join " -- " ps) = List.filter (fun w => negb (String.eqb w "")) (intersperse "--" ps).
Proof.
  induction 1 as [|x ps Hx Hps IH]; [done|].
  destruct ps as [|y ps].
  - simpl. rewrite split_ws_no_space by done. by destruct (String.eqb x "").
  - change (py_join " -- " (x :: y :: ps))
      with (x +:+ String " " ("--" +:+ String " " (py_join " -- " (y :: ps)))).
    rewrite !split_ws_app_space, IH, split_ws_no_space by done.
    simpl. by destruct (String.eqb x "").
Qed.

(** Stripping leaves a string alone when neither end is stripped. *)
Lemma lstrip_by_id p c s : p c = false -> lstrip_by p (String c s) = String c s.
Proof. intros Hc. simpl. by rewrite Hc. Qed.

Lemma rstrip_by_id p s :
  (forall c, endswith s c = true -> p c = false) -> rstrip_by p s = s.
Proof.
  induction s as [|c s IH]; intros Hend; [done|]. simpl.
  destruct s as [|c' s'].
  - simpl. rewrite (Hend c); [done|]. apply Ascii.eqb_refl.
  - rewrite IH; [done|]. intros d Hd. apply Hend. done.
Qed.

(** A stripped last character is removed by [rstrip]. *)
Lemma rstrip_by_app_chr p s c : p c = true -> rstrip_by p (s +:+ chr c) = rstrip_by p s.
Proof.
  intros Hc. induction s as [|x s IH]; simpl; [by rewrite Hc|]. by rewrite IH.
Qed.

Lemma endswith_app_chr s c d : endswith (s +:+ chr c) d = Ascii.eqb c d.
Proof. induction s as [|x [|y s] IH]; done. Qed.

Lemma str_in_cons n c s : str_in n (String c s) = String.prefix n (String c s) || str_in n s.
Proof. done. Qed.

Lemma prefix_cons a p b s :
  String.prefix (String a p) (String b s) = if ascii_dec a b then String.prefix p s else false.
Proof. done. Qed.

(** A character other than ['-'] appended to a string without ["--"]
    does not create one. *)
Lemma str_in_dash_app_chr s c :
  c <> "-"%char -> str_in "--" s = false -> str_in "--" (s +:+ chr c) = false.
Proof.
  intros Hc. induction s as [|x s IH]; intros Hs.
  - change ("" +:+ chr c) with (String c ""). rewrite str_in_cons, prefix_cons.
    destruct (ascii_dec "-" c); [congruence|done].
  - change (String x s +:+ chr c) with (String x (s +:+ chr c)).
    rewrite str_in_cons in *. apply orb_false_iff in Hs as [Hp Hs].
    rewrite IH, orb_false_r by done. rewrite prefix_cons in *.
    destruct (ascii_dec "-" x); [|done]. destruct s as [|y s].
    + change ("" +:+ chr c) with (String c ""). rewrite prefix_cons.
      destruct (ascii_dec "-" c); [congruence|done].
    + change (String y s +:+ chr c) with (String y (s +:+ chr c)). rewrite prefix_cons in *.
      destruct (ascii_dec "-" y); [|done]. destruct s; discriminate.
Qed.

(** [str.split()] of space-separated whitespace-free chunks. *)
Lemma split_ws_spaced (cs : list string) :
  Forall (fun c => c <> "" /\ no_space c = true) cs ->
  split_ws (fold_right (fun c acc => String " " (c +:+ acc)) "" cs) = cs.
Proof.
  induction 1 as [|c cs [Hne Hns] Hcs IH]; [done|]. simpl.
  change (split_ws (String " " _)) with (split_ws (c +:+ fold_right (fun c acc => String " " (c +:+ acc)) "" cs)).
  destruct cs as [|c' cs].
  - simpl. rewrite string_app_nil_r, split_ws_no_space by done.
    destruct (String.eqb_spec c ""); done.
  - simpl in *. rewrite split_ws_app_space, split_ws_no_space by done.
    destruct (String.eqb_spec c ""); [done|]. simpl. by rewrite <- IH.
Qed.

(** ** A trailing whitespace character

    Python's file iteration yields each line with its ["\n"]; these
    lemmas show that [strip()] and [split()] do not see it. *)

Lemma strip_by_app_chr p s c : p c = true -> strip_by p (s +:+ chr c) = strip_by p s.
Proof.
  intros Hc. induction s as [|x s IH].
  - unfold strip_by. simpl. by rewrite Hc.
  - change (String x s +:+ chr c) with (String x (s +:+ chr c)).
    destruct (p x) eqn:Hx; [by rewrite !strip_by_cons|].
    unfold strip_by. rewrite !lstrip_by_id by done.
    change (String x (s +:+ chr c)) with (String x s +:+ chr c). by apply rstrip_by_app_chr.
Qed.

Lemma split_ws_app_chr s c : is_space c = true -> split_ws (s +:+ chr c) = split_ws s.
Proof. intros Hc. unfold chr. rewrite split_ws_app_space by done. apply app_nil_r. Qed.
