(* ===== verification/Sampler.v ===== *)
(** * The weighted sampler: [choice] (src/markov.py, lines 4-13)

    [choice(weighted_set)] sums the weights, returns [None] when the sum
    is not positive, and otherwise draws [randrange(total)] and scans the
    pairs in order, subtracting each weight from the draw and returning
    the first item at which the draw goes negative.

    The draw is the interface [RandomSource]: a generator state [G] and a
    function [randrange] whose law is that a draw for [n > 0] lies in
    [[0, n)].  The sampler and everything that calls it are proved for
    every instance; the instance [replay_source] replays a list of draws
    and is the one the witnesses compute with. *)

From Stdlib Require Import ZArith Lia.
From stdpp Require Import base list.
From S2P Require Import Prelude.

Local Open Scope Z_scope.

(** ** The interface to Python's [random] module *)

Class RandomSource (G : Type) := {
  randrange : G -> Z -> Z * G;
  randrange_bound : forall g n, 0 < n -> 0 <= fst (randrange g n) < n
}.

(** A source that replays recorded draws, reduced modulo the bound; an
    exhausted source draws 0. *)
Record Replay := mkReplay { draws : list Z }.

Definition replay_randrange (g : Replay) (n : Z) : Z * Replay :=
  match draws g with
  | [] => (0, g)
  | c :: cs => (c mod n, mkReplay cs)
  end.

#[export] Instance replay_source : RandomSource Replay.
Proof.
  refine {| randrange := replay_randrange |}.
  intros g n Hn. unfold replay_randrange. destruct (draws g); simpl; [lia|].
  apply Z.mod_pos_bound. lia.
Defined.

(** The weighted set of the witnesses. *)
Definition example_set : list (nat * Z) := [(0%nat, 1); (1%nat, 3)].

Section Choice.
Context {A : Type}.

(** [sum(v for _, v in weighted_set)] *)
Definition total (ws : list (A * Z)) : Z := fold_right (fun p acc => snd p + acc) 0 ws.

(** The loop of lines 10-13, from the draw [c]: [None] when the loop
    runs off the end (Python's implicit [return None]). *)
Fixpoint choice_scan (c : Z) (ws : list (A * Z)) : option A :=
  match ws with
  | [] => None
  | (item, weight) :: ws' =>
    let c' := c - weight in
    if c' <? 0 then Some item else choice_scan c' ws'
  end.

Definition choice {G} `{RandomSource G} (ws : list (A * Z)) (g : G) : option A * G :=
  let t := total ws in
  if t <=? 0 then (None, g)
  else let '(c, g') := randrange g t in (choice_scan c ws, g').

(** Weights are non-negative (the table's counts are). *)
Definition nonneg (ws : list (A * Z)) : Prop := Forall (fun p => 0 <= snd p) ws.

(** The total weight attached to [x]. *)
Definition weight_of `{EqDecision A} (x : A) (ws : list (A * Z)) : Z :=
  total (List.filter (fun p => bool_decide (fst p = x)) ws).

Lemma total_cons x w ws : total ((x, w) :: ws) = w + total ws.
Proof. done. Qed.

Lemma total_nonneg ws : nonneg ws -> 0 <= total ws.
Proof. induction 1 as [|[x w] ws Hw _ IH]; simpl in *; lia. Qed.

(** A draw past the first weight continues the scan on the rest. *)
Lemma choice_scan_shift x w ws c :
  0 <= c -> choice_scan (w + c) ((x, w) :: ws) = choice_scan c ws.
Proof.
  intros Hc. simpl. replace (w + c - w) with c by lia.
  destruct (Z.ltb_spec c 0); [lia|done].
Qed.

Lemma choice_scan_head x w ws c :
  c < w -> choice_scan c ((x, w) :: ws) = Some x.
Proof. intros Hc. simpl. by destruct (Z.ltb_spec (c - w) 0); [|lia]. Qed.
End Choice.

#[export] Hint Resolve total_nonneg : markov.
#[export] Hint Rewrite @total_cons : markov_rw.

(** ** Properties of [choice] *)

Section ChoiceTheorems.
Context {A : Type} `{EqDecision A}.
Implicit Types (x y : A) (w : Z) (ws : list (A * Z)).

Lemma weight_of_cons y w ws x :
  weight_of x ((y, w) :: ws) = (if bool_decide (y = x) then w else 0) + weight_of x ws.
Proof. unfold weight_of. simpl. case_bool_decide; simpl; lia. Qed.

Lemma weight_of_nonneg x ws : nonneg ws -> 0 <= weight_of x ws.
Proof.
  intros Hws. apply total_nonneg. unfold nonneg in *. rewrite Forall_forall in *.
  intros p [Hp _]%list_elem_of_In%filter_In. by apply Hws, list_elem_of_In.
Qed.

(** With a draw in [[0, total)] the scan stops at an item whose weight
    is positive, whatever the signs of the other weights. *)
Lemma choice_scan_some c (ws : list (A * Z)) :
  0 <= c < total ws ->
  exists x w, choice_scan c ws = Some x /\ In (x, w) ws /\ 0 < w.
Proof.
  revert c. induction ws as [|[y w] ws IH]; intros c Hc; simpl in *; [lia|].
  destruct (Z.ltb_spec (c - w) 0).
  - exists y, w. split_and!; [done|by left|lia].
  - destruct (IH (c - w)) as (x & w' & Hx & Hin & Hw); [lia|].
    exists x, w'. split_and!; [done|by right|done].
Qed.

(** C4: the sampler draws each item with probability proportional to
    its weight: of the [total] equally likely draws of
    [randrange(total)], exactly [weight_of x] select [x]. *)
Theorem choice_scan_distribution (ws : list (A * Z)) (x : A) :
  nonneg ws ->
  length (List.filter (fun c => bool_decide (choice_scan c ws = Some x)) (zrange (total ws)))
  = Z.to_nat (weight_of x ws).
Proof.
  induction 1 as [|[y w] ws Hw Hws IH]; [done|]. simpl in Hw.
  rewrite total_cons, zrange_app, List.filter_app, length_app, count_map by eauto with markov.
  rewrite (filter_ext_in _ (fun c => bool_decide (choice_scan c ws = Some x)) (zrange (total ws))), IH.
  2:{ intros c Hc%list_elem_of_In%elem_of_zrange. by rewrite choice_scan_shift by lia. }
  rewrite weight_of_cons. pose proof (weight_of_nonneg x ws Hws).
  case_bool_decide as Hyx.
  - rewrite count_all, length_zrange; [lia|].
    intros c Hc%list_elem_of_In%elem_of_zrange.
    rewrite choice_scan_head by lia. by apply bool_decide_eq_true_2; subst.
  - rewrite count_none; [lia|].
    intros c Hc%list_elem_of_In%elem_of_zrange.
    rewrite choice_scan_head by lia. apply bool_decide_eq_false_2. congruence.
Qed.

(** The dead-end path: no draw, [None]. *)
Lemma choice_dead {G} `{RandomSource G} (ws : list (A * Z)) (g : G) :
  total ws <= 0 -> choice ws g = (None, g).
Proof. intros Hle. unfold choice. by destruct (Z.leb_spec (total ws) 0); [|lia]. Qed.

(** The live path: one draw, an item of positive weight. *)
Lemma choice_live {G} `{RandomSource G} (ws : list (A * Z)) (g : G) :
  0 < total ws ->
  exists x w, choice ws g = (Some x, snd (randrange g (total ws))) /\ In (x, w) ws /\ 0 < w.
Proof.
  intros Hgt. unfold choice. destruct (Z.leb_spec (total ws) 0); [lia|].
  pose proof (randrange_bound g (total ws) Hgt) as Hc.
  destruct (randrange g (total ws)) as [c g']. simpl in *.
  destruct (choice_scan_some c ws Hc) as (x & w & -> & Hin & Hw). by exists x, w.
Qed.

(** Whatever [choice] returns is an item of positive weight. *)
Lemma choice_some_in {G} `{RandomSource G} (ws : list (A * Z)) (g g' : G) (x : A) :
  choice ws g = (Some x, g') -> 0 < total ws /\ exists w, In (x, w) ws /\ 0 < w.
Proof.
  intros Hc. destruct (Z.leb_spec (total ws) 0) as [Hle|Hgt].
  - by rewrite choice_dead in Hc.
  - destruct (choice_live ws g Hgt) as (y & w & Hy & Hin & Hw).
    rewrite Hy in Hc. injection Hc as <- _. eauto.
Qed.

Lemma choice_none_total {G} `{RandomSource G} (ws : list (A * Z)) (g g' : G) :
  choice ws g = (None, g') -> total ws <= 0 /\ g' = g.
Proof.
  intros Hc. destruct (Z.leb_spec (total ws) 0) as [Hle|Hgt].
  - rewrite choice_dead in Hc by done. by injection Hc as <-.
  - destruct (choice_live ws g Hgt) as (y & w & Hy & _). congruence.
Qed.

(** C12: [choice] returns the sentinel [None] exactly when the total
    weight is not positive, and then it draws nothing. *)
Theorem choice_none_iff {G} `{RandomSource G} (ws : list (A * Z)) (g : G) :
  (fst (choice ws g) = None <-> total ws <= 0) /\
  (total ws <= 0 -> choice ws g = (None, g)).
Proof.
  split; [|apply choice_dead]. split.
  - destruct (choice ws g) as [[x|] g'] eqn:E; simpl; [done|].
    intros _. by apply (choice_none_total ws g g').
  - intros Hle. by rewrite choice_dead.
Qed.

(** C13: when the total weight is positive, [choice] consumes one draw
    and returns an item of the set whose weight is positive. *)
Theorem choice_returns_item {G} `{RandomSource G} (ws : list (A * Z)) (g : G) :
  0 < total ws ->
  exists x w, choice ws g = (Some x, snd (randrange g (total ws))) /\ In (x, w) ws /\ 0 < w.
Proof. apply choice_live. Qed.
End ChoiceTheorems.

(** ** Witnesses: the sampler on the weighted set [example_set] *)

(** Three of the four draws select the item of weight 3. *)
Lemma choice_scan_distribution_witness :
  nonneg example_set /\
  length (List.filter (fun c => bool_decide (choice_scan c example_set = Some 1%nat)) (zrange 4)) = 3%nat.
Proof.
  assert (Hn : nonneg example_set) by (repeat constructor; simpl; lia).
  split; [exact Hn | exact (choice_scan_distribution example_set 1%nat Hn)].
Defined.

Lemma choice_none_iff_witness :
  fst (choice (@nil (nat * Z)) (mkReplay [5])) = None /\ choice (@nil (nat * Z)) (mkReplay [5]) = (None, mkReplay [5]).
Proof.
  destruct (choice_none_iff (@nil (nat * Z)) (mkReplay [5])) as [Hiff Hsame].
  split; [apply Hiff; simpl; lia | apply Hsame; simpl; lia].
Defined.

Lemma choice_returns_item_witness :
  (0 < total example_set) /\
  exists x w, choice example_set (mkReplay [2]) = (Some x, mkReplay []) /\ In (x, w) example_set /\ 0 < w.
Proof.
  assert (Ht : 0 < total example_set) by (simpl; lia).
  split; [exact Ht | exact (choice_returns_item example_set (mkReplay [2]) Ht)].
Defined.
