(* ===== verification/Paragraphs.v ===== *)
(** * The paragraph splitter: [get_paragraphs] (src/markov.py, lines 15-23)

    The Python generator keeps a buffer [paragraph]; a non-blank line is
    appended to it after a space, and a blank line (empty after [strip])
    yields the buffer if it is non-empty and resets it.  The generator is
    a list-producing function here; its buffer is the accumulator of
    [get_paragraphs_from].

    The reference [paragraphs_ref] cuts the lines at every blank line,
    keeps the groups a blank line closes, and drops the empty ones; the
    splitter is proved equal to it.  The last group, which no blank line
    closes, is never yielded. *)

From Stdlib Require Import ZArith Lia Ascii String.
From stdpp Require Import base list strings.
From S2P Require Import Prelude PyStr.

Local Open Scope string_scope.
Local Open Scope list_scope.

#[local] Arguments append : simpl nomatch.

(** ** The code *)

(** [line.strip() == ""] *)
Definition is_blank (line : string) : bool := String.eqb (strip_ws line) "".

(** The loop of lines 17-23, from the buffer [paragraph]. *)
Fixpoint get_paragraphs_from (paragraph : string) (text : list string) : list string :=
  match text with
  | [] => []
  | line :: text' =>
      if is_blank line
      then (if String.eqb paragraph "" then get_paragraphs_from "" text'
            else paragraph :: get_paragraphs_from "" text')
      else get_paragraphs_from (paragraph +:+ " " +:+ line) text'
  end.

(** [get_paragraphs(text)], with the buffer initialised to [""]. *)
Definition get_paragraphs (text : list string) : list string := get_paragraphs_from "" text.

(** ** The reference *)

(** The lines cut at every blank line: [n] blank lines give [n + 1]
    groups, the last one the lines after the last blank line. *)
Fixpoint split_at_blank (text : list string) : list (list string) :=
  match text with
  | [] => [[]]
  | line :: text' =>
      let gs := split_at_blank text' in
      if is_blank line then [] :: gs
      else match gs with
           | g :: gs' => (line :: g) :: gs'
           | [] => [[line]]
           end
  end.

(** The text of a paragraph: each line after a space. *)
Definition render (group : list string) : string :=
  fold_right (fun line acc => " " +:+ line +:+ acc) "" group.

(** The groups a blank line closes, without the empty ones, rendered. *)
Definition groups_ref (gs : list (list string)) : list string :=
  map render (List.filter (fun g => negb (bool_decide (g = []))) (removelast gs)).

Definition paragraphs_ref (text : list string) : list string := groups_ref (split_at_blank text).

(** The splitter started from a buffer [p] against the groups: the buffer
    is prepended to the first group. *)
Definition paragraphs_from_ref (p : string) (text : list string) : list string :=
  match split_at_blank text with
  | g :: ((_ :: _) as gs) =>
      (if String.eqb (p +:+ render g) "" then [] else [p +:+ render g]) ++ groups_ref gs
  | _ => []
  end.

(** ** Lemmas *)

Lemma render_cons line g : render (line :: g) = " " +:+ line +:+ render g.
Proof. done. Qed.

Lemma render_empty g : String.eqb (render g) "" = bool_decide (g = []).
Proof. destruct g; done. Qed.

Lemma split_at_blank_cons text : exists g gs, split_at_blank text = g :: gs.
Proof.
  induction text as [|line text (g & gs & IH)]; simpl; [by eexists _, _|].
  rewrite IH. destruct (is_blank line); by eexists _, _.
Qed.

Lemma groups_ref_cons g gs :
  groups_ref (g :: gs) =
  match gs with
  | [] => []
  | _ => (if bool_decide (g = []) then [] else [render g]) ++ groups_ref gs
  end.
Proof. unfold groups_ref. destruct gs; [done|]. simpl. by case_bool_decide. Qed.

Lemma paragraphs_from_ref_empty text : paragraphs_from_ref "" text = paragraphs_ref text.
Proof.
  unfold paragraphs_from_ref, paragraphs_ref.
  destruct (split_at_blank_cons text) as (g & gs & ->).
  rewrite groups_ref_cons. destruct gs; [done|]. simpl. by rewrite render_empty.
Qed.

Lemma get_paragraphs_from_ref p text :
  get_paragraphs_from p text = paragraphs_from_ref p text.
Proof.
  revert p. induction text as [|line text IH]; intros p; [done|].
  unfold paragraphs_from_ref. simpl.
  destruct (split_at_blank_cons text) as (g & gs & Hs). rewrite Hs.
  destruct (is_blank line).
  - rewrite IH, paragraphs_from_ref_empty. unfold paragraphs_ref. rewrite Hs, string_app_nil_r.
    by destruct (String.eqb p "").
  - rewrite IH. unfold paragraphs_from_ref. rewrite Hs, render_cons.
    by rewrite !string_app_assoc.
Qed.

Lemma get_paragraphs_from_nonblank p ls :
  Forall (fun l => is_blank l = false) ls -> get_paragraphs_from p ls = [].
Proof.
  intros Hls. revert p. induction Hls as [|l ls Hl _ IH]; intros p; [done|].
  simpl. rewrite Hl. apply IH.
Qed.

Lemma get_paragraphs_from_app_nonblank p text ls :
  Forall (fun l => is_blank l = false) ls ->
  get_paragraphs_from p (text ++ ls) = get_paragraphs_from p text.
Proof.
  intros Hls. revert p. induction text as [|line text IH]; intros p; simpl.
  - by apply get_paragraphs_from_nonblank.
  - destruct (is_blank line); [destruct (String.eqb p "")|]; by rewrite ?IH.
Qed.

(** A blank line ends every paragraph: the text after it splits on its own. *)
Lemma get_paragraphs_from_app_blank p t1 b t2 :
  is_blank b = true ->
  get_paragraphs_from p (t1 ++ b :: t2) = get_paragraphs_from p (t1 ++ [b]) ++ get_paragraphs t2.
Proof.
  intros Hb. revert p. induction t1 as [|line t1 IH]; intros p; simpl.
  - rewrite Hb. by destruct (String.eqb p "").
  - destruct (is_blank line); [destruct (String.eqb p "")|]; by rewrite ?IH.
Qed.

Lemma get_paragraphs_app_blank t1 b t2 :
  is_blank b = true ->
  get_paragraphs (t1 ++ b :: t2) = get_paragraphs (t1 ++ [b]) ++ get_paragraphs t2.
Proof. apply get_paragraphs_from_app_blank. Qed.

(** ** Theorems *)

(** C9: [get_paragraphs] yields, in order, the groups of lines that a
    blank line closes, skipping empty groups, each rendered as its lines
    each preceded by a space. *)
Theorem get_paragraphs_spec (text : list string) :
  get_paragraphs text = paragraphs_ref text.
Proof.
  unfold get_paragraphs. by rewrite get_paragraphs_from_ref, paragraphs_from_ref_empty.
Qed.

(** C17: lines after the last blank line never reach the output: a
    trailing paragraph not followed by a blank line is dropped. *)
Theorem get_paragraphs_drops_trailing (text ls : list string) :
  Forall (fun l => is_blank l = false) ls ->
  get_paragraphs (text ++ ls) = get_paragraphs text.
Proof. apply get_paragraphs_from_app_nonblank. Qed.

(** ** Witnesses *)

Lemma get_paragraphs_spec_witness :
  get_paragraphs ["It was"; "dark."; ""; "  "; "Then"; ""; "light"] = [" It was dark."; " Then"].
Proof. rewrite get_paragraphs_spec. vm_compute. reflexivity. Defined.

Lemma get_paragraphs_drops_trailing_witness :
  Forall (fun l => is_blank l = false) ["The"; "end."] /\
  get_paragraphs ["Once."; ""; "The"; "end."] = [" Once."].
Proof.
  assert (H : Forall (fun l => is_blank l = false) ["The"; "end."]) by (repeat constructor).
  split; [exact H|].
  refine (eq_trans (get_paragraphs_drops_trailing ["Once."; ""] ["The"; "end."] H) _).
  vm_compute. reflexivity.
Defined.
