(* ===== verification/Tokenizer.v ===== *)
(** * The tokenizer: [clause_parts], [simplify], [tokenize]
    (src/markov.py, lines 25-40)

    [tokenize(line)] splits a paragraph at whitespace; each chunk goes
    through [clause_parts], which either splits a chunk containing ["--"]
    around its dashes, or separates one trailing punctuation mark from
    [": ; ! , ."] using [strip]; every resulting piece then loses its
    surrounding double quotes in [simplify].

    Theorems: no token contains whitespace; a chunk with dashes becomes
    its dash-separated parts with ["--"] tokens between them; and
    [strip] removes the punctuation mark at the front of a chunk as
    well, which the specification words differently.  That quotes are
    stripped only after punctuation is split is a theorem on
    [tokenize] in [Roundtrip.v]. *)

From Stdlib Require Import ZArith Lia Ascii String.
From stdpp Require Import base list strings.
From S2P Require Import Prelude PyStr.

Local Open Scope string_scope.
Local Open Scope list_scope.

#[local] Arguments append : simpl nomatch.

(** ** The code *)

(** The symbols of the loop [for symbol in ":;!,."], in order. *)
Definition clause_symbols : list ascii := [":"; ";"; "!"; ","; "."]%char.

(** [clause_parts(token)], lines 25-32. *)
Definition clause_parts (token : string) : list string :=
  if str_in "--" token then split_ws (py_join " -- " (split_dash token))
  else match List.find (fun sym => endswith token sym) clause_symbols with
       | Some sym => [strip_char sym token; chr sym]
       | None => [token]
       end.

(** The double-quote character. *)
Definition dquote : ascii := ascii_of_nat 34.

(** [simplify(word)], lines 34-35: strip the double quotes at both ends. *)
Definition simplify (word : string) : string := strip_char dquote word.

(** [tokenize(line)], lines 37-40. *)
Definition tokenize (line : string) : list string :=
  flat_map (fun token => map simplify (clause_parts token)) (split_ws line).

(** ** Lemmas *)

Lemma clause_symbols_not_space sym : In sym clause_symbols -> is_space sym = false.
Proof. intros H. in_list_cases H done. Qed.

Lemma clause_symbols_not_dash sym : In sym clause_symbols -> sym <> "-"%char.
Proof. intros H. in_list_cases H done. Qed.

Lemma str_in_dash_cons c s : c <> "-"%char -> str_in "--" (String c s) = str_in "--" s.
Proof.
  intros Hc. change (str_in "--" (String c s)) with (String.prefix "--" (String c s) || str_in "--" s).
  change (String.prefix "--" (String c s)) with (if ascii_dec "-" c then String.prefix "-" s else false).
  by destruct (ascii_dec "-" c).
Qed.

(** A chunk ends with one character only. *)
Lemma endswith_unique token s s' :
  endswith token s = true -> endswith token s' = true -> s = s'.
Proof.
  induction token as [|c [|c' t] IH]; simpl; [done| |by apply IH].
  intros Hs Hs'. apply Ascii.eqb_eq in Hs, Hs'. congruence.
Qed.

(** Only the symbol a chunk ends with can be found by the loop. *)
Lemma find_clause_symbol token sym :
  In sym clause_symbols -> endswith token sym = true ->
  List.find (fun s => endswith token s) clause_symbols = Some sym.
Proof.
  intros Hin Hend.
  assert (Huniq : forall s, endswith token s = true -> s = sym)
    by (intros s Hs; by apply (endswith_unique token)).
  destruct (List.find _ _) as [s|] eqn:Hf.
  - apply find_some in Hf as [_ Hs]. by rewrite (Huniq s Hs).
  - by apply find_none with (x := sym) in Hf; [rewrite Hend in Hf|].
Qed.

Lemma clause_parts_no_space token :
  no_space token = true -> Forall (fun w => no_space w = true) (clause_parts token).
Proof.
  intros Ht. unfold clause_parts. destruct (str_in "--" token).
  - eapply Forall_impl; [apply split_ws_pieces|]. by intros w [_ Hw].
  - destruct (List.find _ _) as [sym|] eqn:Hf; [|by constructor].
    apply find_some in Hf as [Hin _].
    constructor; [by apply str_forall_strip|].
    constructor; [|done]. unfold no_space. simpl.
    by rewrite clause_symbols_not_space.
Qed.

Lemma endswith_nonempty s sym : endswith s sym = true -> s <> "".
Proof. by destruct s. Qed.

(** ** Theorems *)

(** C18: no token that [tokenize] yields contains a whitespace character. *)
Theorem tokenize_no_space (line : string) :
  Forall (fun w => no_space w = true) (tokenize line).
Proof.
  unfold tokenize. apply Forall_forall. intros w Hw%list_elem_of_In.
  apply in_flat_map in Hw as (token & Htok%list_elem_of_In & Hw).
  apply in_map_iff in Hw as (part & <- & Hpart%list_elem_of_In).
  pose proof (split_ws_pieces line) as Hpieces. rewrite Forall_forall in Hpieces.
  destruct (Hpieces token Htok) as [_ Hns].
  pose proof (clause_parts_no_space token Hns) as Hparts. rewrite Forall_forall in Hparts.
  by apply str_forall_strip, Hparts.
Qed.

(** C19: a whitespace-free chunk containing ["--"] becomes its parts
    between the dashes, with a ["--"] token between each two, the empty
    parts left out. *)
Theorem clause_parts_dash (token : string) :
  str_in "--" token = true -> no_space token = true ->
  clause_parts token = List.filter (fun w => negb (String.eqb w "")) (intersperse "--" (split_dash token)).
Proof.
  intros Hdash Hns. unfold clause_parts. rewrite Hdash.
  by apply split_ws_py_join_dash, split_dash_from_forall.
Qed.

(** C22: a chunk that starts and ends with the same punctuation mark
    loses the leading one too: [token.strip(symbol)] strips both ends,
    where the specification says that the trailing occurrences are
    removed. *)
Theorem clause_parts_drops_leading_mark (sym : ascii) (w : string) :
  In sym clause_symbols -> str_in "--" w = false -> endswith w sym = true ->
  clause_parts (String sym w) = clause_parts w.
Proof.
  intros Hin Hdash Hend. pose proof (endswith_nonempty w sym Hend) as Hne.
  unfold clause_parts. rewrite str_in_dash_cons, Hdash by (by apply clause_symbols_not_dash).
  rewrite !(find_clause_symbol _ sym) by (rewrite ?endswith_cons; done).
  unfold strip_char. rewrite strip_by_cons; [done|]. apply Ascii.eqb_refl.
Qed.

(** ** Witnesses *)

Lemma clause_parts_dash_witness :
  clause_parts "well--actually" = ["well"; "--"; "actually"].
Proof.
  refine (eq_trans (clause_parts_dash "well--actually" eq_refl eq_refl) _).
  vm_compute. reflexivity.
Defined.

Lemma clause_parts_drops_leading_mark_witness :
  clause_parts ",hello," = ["hello"; ","] /\ clause_parts "hello," = ["hello"; ","].
Proof.
  assert (Hin : In ","%char clause_symbols) by (simpl; tauto).
  split; [|vm_compute; reflexivity].
  refine (eq_trans (clause_parts_drops_leading_mark ","%char "hello," Hin eq_refl eq_refl) _).
  vm_compute. reflexivity.
Defined.

