(* ===== verification/Detokenizer.v ===== *)
(** * The detokenizer: [join] (src/markov.py, lines 42-49)

    [join(words)] appends each word to an accumulator [phrase], with no
    space before it when [word in ":;!,."] and with one space otherwise.
    The test is Python's substring test, so every substring of
    [":;!,."] counts as punctuation, the empty word and [",."] included.

    Theorems: at every position, a token is preceded by one space
    unless the substring test takes it for punctuation; an empty token
    contributes nothing to the output.  The lemmas show that [join] is
    the concatenation of one piece per word, hence a morphism from
    token lists with [++] to strings with [+:+]. *)

From Stdlib Require Import ZArith Lia Ascii String.
From stdpp Require Import base list strings.
From S2P Require Import Prelude PyStr.

Local Open Scope string_scope.
Local Open Scope list_scope.

#[local] Arguments append : simpl nomatch.

(** ** The code *)

(** The string the membership test of line 45 searches. *)
Definition punctuation : string := ":;!,.".

(** The loop of lines 44-48, from the accumulator [phrase]. *)
Fixpoint join_from (phrase : string) (words : list string) : string :=
  match words with
  | [] => phrase
  | word :: words' =>
      join_from (if str_in word punctuation then phrase +:+ word else phrase +:+ " " +:+ word) words'
  end.

(** [join(words)], with [phrase = ""]. *)
Definition join (words : list string) : string := join_from "" words.

(** ** The pieces *)

(** What one word adds to the output. *)
Definition join_piece (word : string) : string :=
  if str_in word punctuation then word else " " +:+ word.

Lemma join_from_cons (phrase w : string) (ws : list string) :
  join_from phrase (w :: ws) = join_from (phrase +:+ join_piece w) ws.
Proof. unfold join_piece. cbn [join_from]. by destruct (str_in w punctuation). Qed.

Lemma join_from_acc (phrase : string) (words : list string) :
  join_from phrase words = phrase +:+ join_from "" words.
Proof.
  revert phrase. induction words as [|w ws IH]; intros phrase.
  - simpl. by rewrite string_app_nil_r.
  - rewrite !join_from_cons, IH, (IH ("" +:+ join_piece w)). simpl. by rewrite string_app_assoc.
Qed.

Lemma join_cons (w : string) (ws : list string) : join (w :: ws) = join_piece w +:+ join ws.
Proof. unfold join. by rewrite join_from_cons, join_from_acc. Qed.

Lemma join_nil : join [] = "".
Proof. done. Qed.

#[export] Hint Rewrite join_cons join_nil : markov_rw.

(** [join] maps concatenation of token lists to concatenation of
    strings. *)
Lemma join_app (ws1 ws2 : list string) : join (ws1 ++ ws2) = join ws1 +:+ join ws2.
Proof.
  induction ws1 as [|w ws1 IH]; simpl; [done|].
  autorewrite with markov_rw. by rewrite IH.
Qed.

(** ** Theorems *)

(** C20: wherever a token stands, [join] puts one space before it,
    unless the substring test of line 45 takes it for punctuation, in
    which case it is glued to what precedes it; nothing else is added
    or removed around it. *)
Theorem join_spacing (ws1 : list string) (w : string) (ws2 : list string) :
  join (ws1 ++ w :: ws2) =
  join ws1 +:+ (if str_in w punctuation then "" else " ") +:+ w +:+ join ws2.
Proof.
  rewrite join_app, join_cons. unfold join_piece.
  by destruct (str_in w punctuation).
Qed.

(** C24: an empty token, which [tokenize] produces for a chunk of
    punctuation only, is taken for punctuation by the substring test and
    contributes nothing to the output. *)
Theorem join_drops_empty_token (ws1 ws2 : list string) :
  join (ws1 ++ [""] ++ ws2) = join (ws1 ++ ws2).
Proof. by rewrite !join_app, join_cons. Qed.

(** The example of the specification: no space before punctuation, a
    leading space before the first word. *)
Example join_hello_world : join ["Hello"; ","; "world"; "."] = " Hello, world.".
Proof. reflexivity. Qed.
