(* ===== verification/Roundtrip.v ===== *)
(** * Tokenizing rendered text: [tokenize (join ws) = ws], and quotes

    The generator renders tokens with [join] (src/markov.py, lines
    42-49); the tokenizer (lines 25-40) reads text back into tokens.
    This file shows that the tokenizer inverts the detokenizer on token
    sequences made of groups "a word", "a word and a punctuation mark"
    or the dash token ["--"] (which [join] renders with a space before
    it and [clause_parts] reads back from the chunk ["--"]), where a
    word is what [tokenize] leaves alone: non-empty, without whitespace
    or ["--"], without a punctuation mark or a double quote at either
    end, and not a substring of [":;!,."].  The groups are the abstract
    view of a sentence; the theorem is the round trip between the two
    representations that the program converts between.

    With the same words it shows the order of the tokenizer's two
    stages: a word and its mark in double quotes is one token, the word
    with the mark attached, since [simplify] strips the quotes only
    after [clause_parts] has looked for a trailing mark. *)

From Stdlib Require Import ZArith Lia Ascii String.
From stdpp Require Import base list strings.
From S2P Require Import Prelude PyStr Tokenizer Detokenizer.

Local Open Scope string_scope.
Local Open Scope list_scope.

#[local] Arguments append : simpl nomatch.

(** ** Well-formed token sequences *)

(** The characters that [tokenize] strips from the ends of a word. *)
Definition edge_chars : list ascii := dquote :: clause_symbols.

(** A word that [tokenize] leaves alone and [join] prefixes with a space. *)
Definition plain_word (w : string) : bool :=
  match w with
  | EmptyString => false
  | String c _ =>
      negb (existsb (Ascii.eqb c) edge_chars) &&
      forallb (fun e => negb (endswith w e)) edge_chars &&
      no_space w && negb (str_in "--" w) && negb (str_in w punctuation)
  end.

(** A word, a word and the punctuation mark after it, or the dash token
    ["--"] that [clause_parts] makes of a double dash. *)
Inductive group :=
| Word (w : string)
| WordMark (w : string) (sym : ascii)
| Dash.

Definition group_tokens (g : group) : list string :=
  match g with
  | Word w => [w]
  | WordMark w sym => [w; chr sym]
  | Dash => ["--"]
  end.

Definition group_ok (g : group) : Prop :=
  match g with
  | Word w => plain_word w = true
  | WordMark w sym => plain_word w = true /\ In sym clause_symbols
  | Dash => True
  end.

(** The chunk of text a group becomes. *)
Definition chunk (g : group) : string :=
  match g with
  | Word w => w
  | WordMark w sym => w +:+ chr sym
  | Dash => "--"
  end.

(** The chunk [w] followed by the mark [sym], in double quotes. *)
Definition quoted (w : string) (sym : ascii) : string := String dquote (w +:+ chr sym +:+ chr dquote).

(** ** Lemmas *)

Lemma clause_symbols_punctuation sym : In sym clause_symbols -> str_in (chr sym) punctuation = true.
Proof. intros H. in_list_cases H done. Qed.

Lemma plain_word_props w :
  plain_word w = true ->
  w <> "" /\ no_space w = true /\ str_in "--" w = false /\ str_in w punctuation = false /\
  (forall e, In e edge_chars -> endswith w e = false) /\
  (forall c s, w = String c s -> ~ In c edge_chars).
Proof.
  destruct w as [|c s]; [done|]. intros Hw.
  apply andb_prop in Hw as [Hw Hpunct]. apply andb_prop in Hw as [Hw Hdash].
  apply andb_prop in Hw as [Hw Hns]. apply andb_prop in Hw as [Hfirst Hlast].
  split_and!; [done|done|by apply negb_true_iff|by apply negb_true_iff|..].
  - intros e He. rewrite forallb_forall in Hlast. by apply negb_true_iff, Hlast.
  - intros c' s' [= <- <-] Hin. apply negb_true_iff in Hfirst.
    assert (existsb (Ascii.eqb c) edge_chars = true) as Hex
      by (apply existsb_exists; exists c; split; [done|apply Ascii.eqb_refl]).
    congruence.
Qed.

(** [simplify] leaves a plain word alone. *)
Lemma simplify_plain w : plain_word w = true -> simplify w = w.
Proof.
  intros Hw. destruct (plain_word_props w Hw) as (Hne & _ & _ & _ & Hlast & Hfirst).
  destruct w as [|c s]; [done|]. unfold simplify, strip_char, strip_by.
  rewrite lstrip_by_id.
  - apply rstrip_by_id. intros e He. destruct (Ascii.eqb_spec e dquote) as [->|]; [|done].
    rewrite Hlast in He; [done|by left].
  - destruct (Ascii.eqb_spec c dquote) as [->|]; [|done].
    exfalso. by apply (Hfirst dquote s); [|left].
Qed.

Lemma clause_symbols_not_dquote sym : In sym clause_symbols -> sym <> dquote.
Proof. intros H. in_list_cases H discriminate. Qed.

(** [join] renders each group as a space and its chunk. *)
Lemma join_groups (gs : list group) :
  Forall group_ok gs ->
  join (concat (map group_tokens gs)) = fold_right (fun c acc => String " " (c +:+ acc)) "" (map chunk gs).
Proof.
  induction 1 as [|g gs Hg _ IH]; [done|]. simpl.
  destruct g as [w|w sym|]; simpl in *.
  - destruct (plain_word_props w Hg) as (_ & _ & _ & Hp & _).
    rewrite join_cons, IH. unfold join_piece. by rewrite Hp.
  - destruct Hg as [Hg Hsym]. destruct (plain_word_props w Hg) as (_ & _ & _ & Hp & _).
    rewrite !join_cons, IH. unfold join_piece.
    rewrite Hp, clause_symbols_punctuation by done. simpl. by rewrite string_app_assoc.
  - by rewrite join_cons, IH.
Qed.

Lemma chunk_ok g : group_ok g -> chunk g <> "" /\ no_space (chunk g) = true.
Proof.
  destruct g as [w|w sym|]; simpl; [| |done].
  - intros Hw. by destruct (plain_word_props w Hw) as (? & ? & _).
  - intros [Hw Hsym]. destruct (plain_word_props w Hw) as (Hne & Hns & _).
    split; [by destruct w|]. unfold no_space. rewrite str_forall_app. apply andb_true_intro.
    split; [done|]. simpl. by rewrite clause_symbols_not_space.
Qed.

(** The tokenizer reads each chunk back into its group. *)
Lemma clause_parts_chunk g : group_ok g -> map simplify (clause_parts (chunk g)) = group_tokens g.
Proof.
  destruct g as [w|w sym|]; simpl; [| |done].
  - intros Hw. destruct (plain_word_props w Hw) as (_ & _ & Hdash & _ & Hlast & _).
    unfold clause_parts. rewrite Hdash.
    destruct (List.find _ _) as [sym|] eqn:Hf; [|simpl; by rewrite simplify_plain].
    apply find_some in Hf as [Hin Hend]. by rewrite Hlast in Hend; [|right].
  - intros [Hw Hsym]. destruct (plain_word_props w Hw) as (Hne & _ & Hdash & _ & Hlast & Hfirst).
    unfold clause_parts. rewrite str_in_dash_app_chr by (done || by apply clause_symbols_not_dash).
    rewrite (find_clause_symbol _ sym Hsym) by (rewrite endswith_app_chr; apply Ascii.eqb_refl).
    destruct w as [|c s]; [done|]. simpl. f_equal; [|f_equal].
    + unfold strip_char, strip_by. change (String c s +:+ chr sym) with (String c (s +:+ chr sym)).
      rewrite lstrip_by_id.
      * change (String c (s +:+ chr sym)) with (String c s +:+ chr sym).
        rewrite rstrip_by_app_chr by apply Ascii.eqb_refl. rewrite rstrip_by_id.
        { by apply simplify_plain. }
        intros e He. destruct (Ascii.eqb_spec e sym) as [->|]; [|done].
        rewrite Hlast in He; [done|by right].
      * destruct (Ascii.eqb_spec c sym) as [->|]; [|done].
        exfalso. by apply (Hfirst sym s); [|right].
    + assert (Hq : Ascii.eqb sym dquote = false)
        by (apply Ascii.eqb_neq; by apply clause_symbols_not_dquote).
      unfold simplify, strip_char, strip_by, chr. rewrite lstrip_by_id by done.
      apply rstrip_by_id. intros e He. simpl in He. apply Ascii.eqb_eq in He. by subst.
Qed.

(** A quoted word and mark: no whitespace, no double dash, and the
    quote, not a punctuation mark, at its end. *)
Lemma quoted_assoc w sym : quoted w sym = String dquote ((w +:+ chr sym) +:+ chr dquote).
Proof. unfold quoted. by rewrite string_app_assoc. Qed.

Lemma quoted_parts w sym :
  plain_word w = true -> In sym clause_symbols ->
  no_space (quoted w sym) = true /\ str_in "--" (quoted w sym) = false /\
  (forall e, endswith (quoted w sym) e = Ascii.eqb dquote e).
Proof.
  intros Hw Hsym. destruct (plain_word_props w Hw) as (_ & Hns & Hdash & _).
  rewrite quoted_assoc. split_and!.
  - unfold no_space in *. simpl. rewrite !str_forall_app, Hns. simpl.
    by rewrite clause_symbols_not_space.
  - rewrite str_in_dash_cons by done.
    apply str_in_dash_app_chr; [done|]. apply str_in_dash_app_chr; [|done].
    by apply clause_symbols_not_dash.
  - intros e. rewrite endswith_cons; [apply endswith_app_chr|]. by destruct w.
Qed.

Lemma simplify_quoted w sym :
  plain_word w = true -> In sym clause_symbols -> simplify (quoted w sym) = w +:+ chr sym.
Proof.
  intros Hw Hsym. destruct (plain_word_props w Hw) as (_ & _ & _ & _ & _ & Hfirst).
  unfold simplify, strip_char, strip_by. rewrite quoted_assoc. simpl.
  rewrite ?Ascii.eqb_refl. destruct w as [|c s]; [done|].
  change ((String c s +:+ chr sym) +:+ chr dquote) with (String c ((s +:+ chr sym) +:+ chr dquote)).
  rewrite lstrip_by_id.
  - change (String c ((s +:+ chr sym) +:+ chr dquote)) with ((String c s +:+ chr sym) +:+ chr dquote).
    rewrite rstrip_by_app_chr by apply Ascii.eqb_refl. apply rstrip_by_id.
    intros e He. rewrite endswith_app_chr in He. apply Ascii.eqb_eq in He as <-.
    apply Ascii.eqb_neq. by apply clause_symbols_not_dquote.
  - destruct (Ascii.eqb_spec c dquote) as [->|]; [|done].
    exfalso. by apply (Hfirst dquote s); [|left].
Qed.

(** ** Theorem *)

(** C10: on a sequence of words each optionally followed by one
    punctuation mark, with dash tokens ["--"] between them, [tokenize]
    recovers exactly the tokens that [join] rendered. *)
Theorem tokenize_join (gs : list group) :
  Forall group_ok gs ->
  tokenize (join (concat (map group_tokens gs))) = concat (map group_tokens gs).
Proof.
  intros Hgs. rewrite join_groups by done. unfold tokenize.
  rewrite split_ws_spaced.
  - induction Hgs as [|g gs Hg _ IH]; [done|]. simpl. by rewrite clause_parts_chunk, IH.
  - apply Forall_map. eapply Forall_impl; [exact Hgs|]. intros g. apply chunk_ok.
Qed.

(** C23: double quotes are stripped only after punctuation is split:
    a word followed by a punctuation mark, all in double quotes, is one
    token, the word with its mark attached.  Stripping the quotes first
    would have split it into the word and the mark. *)
Theorem tokenize_quoted_mark (w : string) (sym : ascii) :
  plain_word w = true -> In sym clause_symbols ->
  tokenize (quoted w sym) = [w +:+ chr sym].
Proof.
  intros Hw Hsym. destruct (quoted_parts w sym Hw Hsym) as (Hns & Hdash & Hend).
  unfold tokenize. rewrite split_ws_no_space by done.
  assert (Hq : String.eqb (quoted w sym) "" = false) by done. rewrite Hq. cbn [flat_map].
  rewrite app_nil_r. unfold clause_parts. rewrite Hdash.
  destruct (List.find _ clause_symbols) as [e|] eqn:Hf.
  - apply find_some in Hf as [He Hend']. rewrite Hend in Hend'.
    apply Ascii.eqb_eq in Hend' as <-. exfalso. by apply (clause_symbols_not_dquote dquote).
  - cbn [map]. by rewrite simplify_quoted.
Qed.

(** ** Witness *)

Lemma tokenize_join_witness :
  Forall group_ok [WordMark "Hello" ","; Dash; WordMark "world" "."] /\
  tokenize (join ["Hello"; ","; "--"; "world"; "."]) = ["Hello"; ","; "--"; "world"; "."].
Proof.
  assert (H : Forall group_ok [WordMark "Hello" ","; Dash; WordMark "world" "."])
    by (repeat constructor; simpl; tauto).
  split; [exact H | exact (tokenize_join _ H)].
Defined.

Lemma tokenize_quoted_mark_witness :
  plain_word "Hello" = true /\ In "."%char clause_symbols /\
  tokenize (String dquote ("Hello." +:+ chr dquote)) = ["Hello."].
Proof.
  assert (Hw : plain_word "Hello" = true) by reflexivity.
  assert (Hs : In "."%char clause_symbols) by (simpl; tauto).
  split_and!; [exact Hw|exact Hs|exact (tokenize_quoted_mark "Hello" "." Hw Hs)].
Defined.
