(* ===== verification/Chain.v ===== *)
(** * The frequency table and its ingestion: [MarkovChain.__init__],
    [process_input] (src/markov.py, lines 51-63)

    [self.table] is a [defaultdict] from contexts ([tuple(prefix)]) to
    [defaultdict(int)]s from words to counts.  The outer dictionary is a
    stdpp [gmap] keyed by [list (option string)], [None] being the start
    marker; the inner one is an association list in insertion order,
    because [choice] scans it in that order.  Reading [self.table[key]]
    is [successors_of], which sees an absent key as the empty map.

    [process_input] walks the paragraphs of its input; each paragraph
    restarts the context at [order] start markers, and every token adds
    one to the count of (context, token) and slides the context.

    Theorems: the table invariant (counts at least 1, no duplicate
    successor, contexts of length [order]) is preserved; ingestion
    refines the abstract multiset of n-grams, each paragraph windowed
    from its own start markers; consequences: ingesting twice doubles
    every count, and ingestion of a text that ends with a blank line
    composes with ingestion of what follows; ingesting two texts in
    either order gives the same counts.  With [order = 0] the context is
    not empty after the first token: it has one entry, and the chain
    counts like a chain of order 1.  Tables are compared up to
    [table_equiv], which identifies an absent context with one that has
    no successors; every operation is [Proper] for it. *)

From Stdlib Require Import ZArith Lia Ascii String.
From stdpp Require Import base list strings gmap.
From S2P Require Import Prelude PyStr Paragraphs Tokenizer.

Local Open Scope string_scope.
Local Open Scope list_scope.

(** ** State *)

(** [tuple(prefix)]: the last [order] tokens, [None] for the start marker. *)
Abbreviation context := (list (option string)).

(** A [defaultdict(int)] of successor counts, in insertion order. *)
Abbreviation successors := (list (string * Z)).

Record MarkovChain := mkChain {
  order : nat;
  table : gmap context successors
}.

(** [MarkovChain(order)], lines 54-56. *)
Definition init (order : nat) : MarkovChain := mkChain order ∅.

(** [self.table[ctx]] read through the defaultdict. *)
Definition successors_of (t : gmap context successors) (ctx : context) : successors :=
  default [] (t !! ctx).

(** [d[word] += 1] on a [defaultdict(int)]: a new key is appended. *)
Fixpoint succ_incr (word : string) (s : successors) : successors :=
  match s with
  | [] => [(word, 1%Z)]
  | (k, n) :: s' => if String.eqb k word then (k, (n + 1)%Z) :: s' else (k, n) :: succ_incr word s'
  end.

(** [self.table[tuple(prefix)][word] += 1], line 62. *)
Definition table_incr (t : gmap context successors) (ctx : context) (word : string)
  : gmap context successors :=
  <[ctx := succ_incr word (successors_of t ctx)]> t.

(** The loop of lines 61-63 over the tokens of one paragraph. *)
Fixpoint ingest_words (t : gmap context successors) (prefix : context) (words : list string)
  : gmap context successors :=
  match words with
  | [] => t
  | word :: words' => ingest_words (table_incr t prefix word) (slide prefix (Some word)) words'
  end.

(** Lines 60-63: one paragraph, from [order] start markers. *)
Definition ingest_paragraph (k : nat) (t : gmap context successors) (paragraph : string)
  : gmap context successors :=
  ingest_words t (replicate k None) (tokenize paragraph).

(** [process_input(source)], lines 58-63, over the lines of the source. *)
Definition process_input (mc : MarkovChain) (text : list string) : MarkovChain :=
  mkChain (order mc) (fold_left (ingest_paragraph (order mc)) (get_paragraphs text) (table mc)).

(** ** Counts *)

(** The count of [word] in a successor map, 0 when absent. *)
Fixpoint succ_count (s : successors) (word : string) : Z :=
  match s with
  | [] => 0
  | (k, n) :: s' => if String.eqb k word then n else succ_count s' word
  end.

Definition count (t : gmap context successors) (ctx : context) (word : string) : Z :=
  succ_count (successors_of t ctx) word.

(** ** The abstract n-grams *)

(** [count_occ] with stdpp's decidable equality. *)
Definition occurrences {A} `{EqDecision A} (l : list A) (x : A) : nat :=
  count_occ (fun a b => decide (a = b)) l x.

(** The (context, token) pairs the loop of lines 61-63 counts, in order. *)
Fixpoint ngrams_from (prefix : context) (words : list string) : list (context * string) :=
  match words with
  | [] => []
  | w :: ws => (prefix, w) :: ngrams_from (slide prefix (Some w)) ws
  end.

(** The context of the [i]-th token of a paragraph: the last [k] entries
    of [k] start markers followed by the tokens before it. *)
Definition window (k : nat) (ws : list string) (i : nat) : context :=
  lastn k (replicate k None ++ map Some (take i ws)).

(** The reference: each token with the window before it. *)
Definition ngrams (k : nat) (ws : list string) : list (context * string) :=
  imap (fun i w => (window k ws i, w)) ws.

(** ** The table invariant *)

(** A successor map: no word twice, every count at least 1. *)
Definition succ_wf (s : successors) : Prop :=
  NoDup (map fst s) /\ Forall (fun p => (1 <= snd p)%Z) s.

(** Every context has [k] entries (when [k >= 1]) and every successor
    map is well formed. *)
Definition table_wf (k : nat) (t : gmap context successors) : Prop :=
  map_Forall (fun ctx s => (k <> 0 -> length ctx = k) /\ succ_wf s) t.

Definition chain_wf (mc : MarkovChain) : Prop := table_wf (order mc) (table mc).

(** ** Equivalence of tables and chains

    A [defaultdict] read sees an absent context as an empty successor
    map, so two tables that differ only by contexts mapped to [[]] are
    indistinguishable by the program: [table_equiv] is that
    equivalence. *)

Definition table_equiv (t1 t2 : gmap context successors) : Prop :=
  forall ctx, successors_of t1 ctx = successors_of t2 ctx.

Infix "≃" := table_equiv (at level 70) : markov_scope.
Local Open Scope markov_scope.

(** Chains with the same order and equivalent tables. *)
Definition chain_equiv (mc1 mc2 : MarkovChain) : Prop :=
  order mc1 = order mc2 /\ table mc1 ≃ table mc2.

(** ** Example data *)

(** Two paragraphs, the second ended by the blank line after it. *)
Definition example_text : list string := ["the cat saw"; "the cat"; ""; "the dog"; ""].

(** ** Lemmas on counts *)

Lemma succ_count_incr s x w :
  succ_count (succ_incr x s) w = (succ_count s w + if String.eqb x w then 1 else 0)%Z.
Proof.
  induction s as [|[k n] s IH]; simpl.
  - destruct (String.eqb x w); lia.
  - destruct (String.eqb_spec k x) as [->|Hkx]; simpl.
    + destruct (String.eqb x w); lia.
    + destruct (String.eqb_spec k w) as [->|Hkw]; simpl; [|done].
      destruct (String.eqb_spec x w); [congruence|lia].
Qed.

Lemma successors_of_incr t ctx x ctx' :
  successors_of (table_incr t ctx x) ctx' =
  if decide (ctx = ctx') then succ_incr x (successors_of t ctx) else successors_of t ctx'.
Proof.
  unfold successors_of, table_incr. case_decide as E.
  - subst. by rewrite lookup_insert_eq.
  - by rewrite lookup_insert_ne.
Qed.

Lemma count_incr t ctx x ctx' w :
  count (table_incr t ctx x) ctx' w =
  (count t ctx' w + if bool_decide ((ctx, x) = (ctx', w)) then 1 else 0)%Z.
Proof.
  unfold count. rewrite successors_of_incr. case_decide as E.
  - subst. rewrite succ_count_incr.
    destruct (String.eqb_spec x w); case_bool_decide; congruence || lia.
  - case_bool_decide; [congruence|lia].
Qed.

(** ** Lemmas on n-grams *)

Lemma occurrences_cons {A} `{EqDecision A} (a : A) (l : list A) (x : A) :
  occurrences (a :: l) x = ((if decide (a = x) then 1 else 0) + occurrences l x)%nat.
Proof. unfold occurrences. simpl. by destruct (decide (a = x)). Qed.

Lemma count_ingest_words t prefix ws ctx w :
  count (ingest_words t prefix ws) ctx w =
  (count t ctx w + Z.of_nat (occurrences (ngrams_from prefix ws) (ctx, w)))%Z.
Proof.
  revert t prefix. induction ws as [|x ws IH]; intros t prefix; simpl; [lia|].
  rewrite IH, count_incr. unfold occurrences. simpl.
  destruct (decide ((prefix, x) = (ctx, w))); case_bool_decide; congruence || lia.
Qed.

Lemma ngrams_from_lastn (k : nat) (hist : context) (ws : list string) :
  1 <= k <= length hist ->
  ngrams_from (lastn k hist) ws = imap (fun i w => (lastn k (hist ++ map Some (take i ws)), w)) ws.
Proof.
  revert hist. induction ws as [|x ws IH]; intros hist Hk; [done|].
  cbn [ngrams_from]. rewrite imap_cons, slide_lastn, IH by (rewrite ?length_app; simpl; lia).
  simpl. rewrite app_nil_r. f_equal. apply imap_ext. intros i w _. simpl.
  by rewrite <- app_assoc.
Qed.

(** The sliding loop computes the windows, for [order >= 1]. *)
Lemma ngrams_from_start (k : nat) (ws : list string) :
  1 <= k -> ngrams_from (replicate k None) ws = ngrams k ws.
Proof.
  intros Hk. unfold ngrams, window.
  rewrite <- (lastn_all (replicate k None)) at 1. rewrite length_replicate.
  apply ngrams_from_lastn. rewrite length_replicate. lia.
Qed.

(** Ingestion counts the n-grams of every paragraph, each paragraph from
    its own start markers. *)
Lemma count_process_input_from mc text ctx w :
  count (table (process_input mc text)) ctx w =
  (count (table mc) ctx w +
   Z.of_nat (occurrences
     (concat (map (fun p => ngrams_from (replicate (order mc) None) (tokenize p)) (get_paragraphs text)))
     (ctx, w)))%Z.
Proof.
  destruct mc as [k t]. unfold process_input. simpl.
  generalize (get_paragraphs text) as ps. intros ps. revert t.
  induction ps as [|p ps IH]; intros t; simpl; [lia|].
  rewrite IH. unfold ingest_paragraph. rewrite count_ingest_words.
  unfold occurrences. rewrite count_occ_app. lia.
Qed.

(** ** Theorems: ingestion *)

(** C1: for [order >= 1], after [process_input] the count of
    (context, token) has grown by the number of times the token follows
    that context in the paragraphs of the input, each paragraph read from
    [order] start markers: the table refines the multiset of the text's
    n-grams, and no context spans two paragraphs. *)
Theorem process_input_counts (mc : MarkovChain) (text : list string) (ctx : context) (w : string) :
  order mc <> 0 ->
  count (table (process_input mc text)) ctx w =
  (count (table mc) ctx w +
   Z.of_nat (occurrences (concat (map (fun p => ngrams (order mc) (tokenize p)) (get_paragraphs text))) (ctx, w)))%Z.
Proof.
  intros Hk. rewrite count_process_input_from. do 4 f_equal.
  apply map_ext. intros p. apply ngrams_from_start. lia.
Qed.

(** C14: ingesting the same source twice into a fresh model doubles
    every count. *)
Theorem process_input_twice (k : nat) (text : list string) (ctx : context) (w : string) :
  count (table (process_input (process_input (init k) text) text)) ctx w =
  (2 * count (table (process_input (init k) text)) ctx w)%Z.
Proof.
  rewrite !count_process_input_from. simpl.
  unfold count, successors_of. rewrite lookup_empty. simpl. lia.
Qed.

(** C15: a blank line isolates what follows it: ingesting a text that
    has a blank line is ingesting the part up to it, then the rest. *)
Theorem process_input_app_blank (mc : MarkovChain) (t1 t2 : list string) (b : string) :
  is_blank b = true ->
  process_input mc (t1 ++ b :: t2) = process_input (process_input mc (t1 ++ [b])) t2.
Proof.
  intros Hb. unfold process_input. simpl.
  by rewrite get_paragraphs_app_blank, fold_left_app by done.
Qed.

(** C16: ingestion of two sources commutes on counts: every count of
    the table is the same whichever source is read first. *)
Theorem process_input_commute_counts (mc : MarkovChain) (t1 t2 : list string) (ctx : context) (w : string) :
  count (table (process_input (process_input mc t1) t2)) ctx w =
  count (table (process_input (process_input mc t2) t1)) ctx w.
Proof. rewrite !count_process_input_from. simpl. lia. Qed.

(** ** The table invariant is preserved *)

Lemma succ_wf_nil : succ_wf [].
Proof. split; constructor. Qed.

Lemma succ_incr_keys x s y : y ∈ map fst (succ_incr x s) <-> y = x \/ y ∈ map fst s.
Proof.
  induction s as [|[k n] s IH]; simpl.
  - rewrite list_elem_of_singleton, elem_of_nil. tauto.
  - destruct (String.eqb_spec k x) as [->|Hkx]; simpl; rewrite !elem_of_cons; [tauto|].
    rewrite IH. tauto.
Qed.

Lemma succ_incr_wf x s : succ_wf s -> succ_wf (succ_incr x s).
Proof.
  intros [Hnd Hpos]. induction s as [|[k n] s IH]; simpl.
  - split; [apply NoDup_singleton|]. constructor; [simpl; lia|done].
  - apply NoDup_cons in Hnd as [Hk Hnd]. apply Forall_cons in Hpos as [Hn Hpos].
    destruct (String.eqb_spec k x) as [->|Hkx].
    + split; [by apply NoDup_cons|]. constructor; [simpl in *; lia|done].
    + destruct (IH Hnd Hpos) as [Hnd' Hpos']. split; [|by constructor].
      apply NoDup_cons. split; [|done]. rewrite succ_incr_keys. naive_solver.
Qed.

Lemma successors_of_wf k t ctx : table_wf k t -> succ_wf (successors_of t ctx).
Proof.
  intros Ht. unfold successors_of. destruct (t !! ctx) as [s|] eqn:E; simpl.
  - by destruct (Ht ctx s E).
  - apply succ_wf_nil.
Qed.

Lemma table_incr_wf k t ctx x :
  table_wf k t -> (k <> 0 -> length ctx = k) -> table_wf k (table_incr t ctx x).
Proof.
  intros Ht Hctx. apply map_Forall_insert_2; [|done].
  split; [done|]. by eapply succ_incr_wf, successors_of_wf.
Qed.

Lemma ingest_words_wf k t prefix ws :
  table_wf k t -> (k <> 0 -> length prefix = k) -> table_wf k (ingest_words t prefix ws).
Proof.
  revert t prefix. induction ws as [|x ws IH]; intros t prefix Ht Hp; simpl; [done|].
  apply IH; [by apply table_incr_wf|].
  intros Hk. rewrite length_slide; [by apply Hp|]. intros ->. simpl in Hp. lia.
Qed.

#[export] Hint Resolve succ_wf_nil succ_incr_wf successors_of_wf table_incr_wf ingest_words_wf : markov.

Lemma init_wf k : chain_wf (init k).
Proof. apply map_Forall_empty. Qed.

(** The loop of lines 59-63 over any list of paragraphs keeps the
    invariant. *)
Lemma fold_ingest_paragraph_wf k ps t :
  table_wf k t -> table_wf k (fold_left (ingest_paragraph k) ps t).
Proof.
  revert t. induction ps as [|p ps IH]; intros t Ht; simpl; [done|].
  apply IH. unfold ingest_paragraph. apply ingest_words_wf; [done|].
  intros _. apply length_replicate.
Qed.

(** Ingestion sees a paragraph only through its tokens. *)
Lemma fold_ingest_paragraph_tokens k ps1 ps2 t :
  map tokenize ps1 = map tokenize ps2 ->
  fold_left (ingest_paragraph k) ps1 t = fold_left (ingest_paragraph k) ps2 t.
Proof.
  revert ps2 t. induction ps1 as [|p1 ps1 IH]; intros [|p2 ps2] t; simpl; try done.
  intros [= Hp Hps]. unfold ingest_paragraph at 2 4. rewrite Hp. by apply IH.
Qed.

(** C6: [process_input] preserves the table invariant: contexts keep
    [order] entries, successor counts stay at least 1, and no successor
    is recorded twice under one context. *)
Theorem process_input_wf (mc : MarkovChain) (text : list string) :
  chain_wf mc -> chain_wf (process_input mc text).
Proof. destruct mc as [k t]. apply fold_ingest_paragraph_wf. Qed.

(** ** Order 0 *)

Lemma occurrences_concat_map {A B} `{EqDecision B} (f g : A -> list B) (l : list A) (a b : B) :
  (forall x, occurrences (f x) a = occurrences (g x) b) ->
  occurrences (concat (map f l)) a = occurrences (concat (map g l)) b.
Proof.
  intros Hfg. induction l as [|x l IH]; [done|]. simpl.
  unfold occurrences in *. by rewrite !count_occ_app, Hfg, IH.
Qed.

Lemma ngrams_from_single_ctx x ws :
  Forall (fun p => exists y, p.1 = [Some y]) (ngrams_from [Some x] ws).
Proof.
  revert x. induction ws as [|y ws IH]; intros x; constructor; [by eexists|apply IH].
Qed.

Lemma occurrences_single_ctx x ws c w :
  (forall y, c <> [Some y]) -> occurrences (ngrams_from [Some x] ws) (c, w) = 0.
Proof.
  intros Hc. apply count_occ_not_In. intros Hin.
  pose proof (ngrams_from_single_ctx x ws) as Hall. rewrite Forall_forall in Hall.
  destruct (Hall (c, w)) as [y Hy]; [by apply list_elem_of_In|]. by apply (Hc y).
Qed.

(** Read from [[]] or from [[None]], a paragraph gives the same n-grams
    but for the context of its first token. *)
Lemma ngrams_from_zero_one ws c w :
  occurrences (ngrams_from [] ws) (if decide (c = [None]) then [] else c, w) =
  occurrences (ngrams_from [None] ws) (c, w) \/ c = [].
Proof.
  destruct (decide (c = [])) as [->|Hnil]; [by right|left].
  destruct ws as [|x ws]; [by case_decide|]. cbn [ngrams_from].
  change (slide [] (Some x)) with [Some x]. change (slide [None] (Some x)) with [Some x].
  rewrite !occurrences_cons. destruct (decide (c = [None])) as [->|Hc].
  - rewrite !occurrences_single_ctx by congruence.
    destruct (String.eq_dec x w) as [->|Hxw]; [by rewrite !decide_True|].
    rewrite !decide_False by congruence. done.
  - rewrite !decide_False by congruence. done.
Qed.

(** C21: the constructor accepts [order = 0], and such a model is an
    order-1 model whose first context is [[]] instead of [[None]]:
    [prefix[1:] + [word]] turns the empty context into a one-entry one. *)
Theorem order_zero_as_order_one (text : list string) (ctx : context) (w : string) :
  ctx <> [] ->
  count (table (process_input (init 0) text)) (if decide (ctx = [None]) then [] else ctx) w =
  count (table (process_input (init 1) text)) ctx w.
Proof.
  intros Hnil. rewrite !count_process_input_from. simpl. f_equal. f_equal.
  apply occurrences_concat_map. intros p.
  by destruct (ngrams_from_zero_one (tokenize p) ctx w).
Qed.

(** ** Reading, counting and ingesting respect the equivalence *)

#[export] Instance table_equiv_equivalence : Equivalence table_equiv.
Proof.
  split; repeat intro; [done|by symmetry|].
  by etransitivity; [match goal with H : _ ≃ _ |- _ => apply H end|].
Qed.

#[export] Instance successors_of_proper : Proper (table_equiv ==> eq ==> eq) successors_of.
Proof. intros t1 t2 Ht ctx ? <-. apply Ht. Qed.

#[export] Instance count_proper : Proper (table_equiv ==> eq ==> eq ==> eq) count.
Proof. intros t1 t2 Ht ctx ? <- w ? <-. unfold count. by rewrite Ht. Qed.

#[export] Instance table_incr_proper : Proper (table_equiv ==> eq ==> eq ==> table_equiv) table_incr.
Proof.
  intros t1 t2 Ht ctx ? <- x ? <- ctx'. rewrite !successors_of_incr.
  case_decide; by rewrite Ht.
Qed.

#[export] Instance ingest_words_proper : Proper (table_equiv ==> eq ==> eq ==> table_equiv) ingest_words.
Proof.
  intros t1 t2 Ht prefix ? <- ws ? <-. revert t1 t2 Ht prefix.
  induction ws as [|x ws IH]; intros t1 t2 Ht prefix; simpl; [done|].
  apply IH. by rewrite Ht.
Qed.

#[export] Instance ingest_paragraph_proper :
  Proper (eq ==> table_equiv ==> eq ==> table_equiv) ingest_paragraph.
Proof. intros k ? <- t1 t2 Ht p ? <-. unfold ingest_paragraph. by rewrite Ht. Qed.

#[export] Instance chain_equiv_equivalence : Equivalence chain_equiv.
Proof.
  split.
  - intros mc. by split.
  - intros mc1 mc2 [Ho Ht]. by split.
  - intros mc1 mc2 mc3 [Ho1 Ht1] [Ho2 Ht2]. split; [congruence|by rewrite Ht1].
Qed.

#[export] Instance process_input_proper : Proper (chain_equiv ==> eq ==> chain_equiv) process_input.
Proof.
  intros [k1 t1] [k2 t2] [Ho Ht] text ? <-. simpl in *. subst k2.
  split; [done|]. simpl. generalize (get_paragraphs text) as ps. intros ps.
  revert t1 t2 Ht. induction ps as [|p ps IH]; intros t1 t2 Ht; simpl; [done|].
  apply IH. by rewrite Ht.
Qed.

(** ** Witnesses *)

Lemma process_input_counts_witness :
  order (init 2) <> 0 /\
  count (table (process_input (init 2) example_text)) [Some "the"; Some "cat"] "saw" = 1%Z /\
  count (table (process_input (init 2) example_text)) [None; None] "the" = 2%Z.
Proof.
  assert (Hk : order (init 2) <> 0) by (simpl; lia).
  split_and!; [exact Hk|..].
  - rewrite (process_input_counts (init 2) example_text _ _ Hk). vm_compute. reflexivity.
  - rewrite (process_input_counts (init 2) example_text _ _ Hk). vm_compute. reflexivity.
Defined.

Lemma process_input_app_blank_witness :
  is_blank "" = true /\
  process_input (init 2) (["the cat saw"; "the cat"] ++ "" :: ["the dog"; ""]) =
  process_input (process_input (init 2) (["the cat saw"; "the cat"] ++ [""])) ["the dog"; ""].
Proof.
  assert (Hb : is_blank "" = true) by reflexivity.
  split; [exact Hb | exact (process_input_app_blank (init 2) _ _ "" Hb)].
Defined.

Lemma process_input_wf_witness :
  chain_wf (init 2) /\ chain_wf (process_input (init 2) example_text).
Proof. split; [apply init_wf | exact (process_input_wf (init 2) example_text (init_wf 2))]. Defined.

Lemma order_zero_as_order_one_witness :
  [Some "cat"] <> [] /\
  count (table (process_input (init 0) example_text)) [Some "cat"] "saw" =
  count (table (process_input (init 1) example_text)) [Some "cat"] "saw".
Proof.
  assert (H : [Some "cat"] <> ([] : context)) by discriminate.
  split; [exact H | exact (order_zero_as_order_one example_text [Some "cat"] "saw" H)].
Defined.
