(* ===== verification/Generator.v ===== *)
(** * The generator: [MarkovChain.get] and [output]
    (src/markov.py, lines 65-78)

    [get(prefix)] reads [self.table[tuple(prefix)]] (the defaultdict
    inserts an empty successor map for an unseen context) and samples it
    with [choice].  [output(length)] starts from [order] start markers,
    appends sampled tokens and slides the context until it has [length]
    tokens; at a dead end it joins what it has, adds a paragraph break
    and calls itself for the remaining length from fresh start markers.

    The model threads the chain (its table changes on reads) and the
    random source through every call.  [output] recurses without bound
    in Python; here it takes fuel.  The [while] loop is [output_loop],
    structurally recursive on the number of tokens still wanted.

    Theorems: generation only adds empty entries, so the chain it leaves
    is equivalent to the one it got; with [length + 1] units of fuel
    [output] returns whenever [length = 0] or the start context has
    successors, and otherwise it never returns (Python's unbounded
    recursion); what it returns is a paragraph-break-separated list of
    segments of [length] tokens in all, each a walk through observed
    n-grams, and each segment but the last stopped at a dead end; and
    equivalent tables give the same text.  An example shows that two
    ingestion orders with equal counts can give different text for the
    same draw, because [choice] scans successors in insertion order. *)

From Stdlib Require Import ZArith Lia Ascii String.
From stdpp Require Import base list strings gmap.
From S2P Require Import Prelude PyStr Sampler Detokenizer Chain.

Local Open Scope string_scope.
Local Open Scope list_scope.
Local Open Scope markov_scope.

Section GeneratorCode.
Context {G : Type} `{RandomSource G}.

(** ** The code *)

(** [self.table[tuple(prefix)]] as an expression statement: the
    defaultdict stores an empty map for an absent key. *)
Definition touch (t : gmap context successors) (ctx : context) : gmap context successors :=
  match t !! ctx with
  | Some _ => t
  | None => <[ctx := []]> t
  end.

(** [get(prefix)], lines 65-67: the sampled word, the chain after the
    read, the random source after the draw. *)
Definition get (mc : MarkovChain) (prefix : context) (g : G) : option string * MarkovChain * G :=
  let '(word, g') := choice (successors_of (table mc) prefix) g in
  (word, mkChain (order mc) (touch (table mc) prefix), g').

(** The [while] loop of lines 72-77, with [n = length - len(result)]
    iterations left; [true] when it stopped at a dead end. *)
Fixpoint output_loop (n : nat) (mc : MarkovChain) (prefix : context) (result : list string) (g : G)
  : bool * list string * MarkovChain * G :=
  match n with
  | 0 => (false, result, mc, g)
  | S n' =>
      match get mc prefix g with
      | (None, mc', g') => (true, result, mc', g')
      | (Some word, mc', g') => output_loop n' mc' (slide prefix (Some word)) (result ++ [word]) g'
      end
  end.

(** The paragraph break ["\n\n"]. *)
Definition paragraph_break : string := String "010" (String "010" EmptyString).

(** [output(length)], lines 69-78, with [fuel] bounding the recursion of
    line 75; [None] when the fuel runs out. *)
Fixpoint output (fuel : nat) (mc : MarkovChain) (length : nat) (g : G)
  : option (string * MarkovChain * G) :=
  match fuel with
  | 0 => None
  | S fuel' =>
      let '(dead, result, mc', g') := output_loop length mc (replicate (order mc) None) [] g in
      if dead then
        match output fuel' mc' (length - List.length result) g' with
        | Some (rest, mc'', g'') => Some (join result +:+ paragraph_break +:+ rest, mc'', g'')
        | None => None
        end
      else Some (join result, mc', g')
  end.

(** ** What a run may produce *)

(** [ws] can be generated from [prefix]: each token has a positive count
    after the context that precedes it. *)
Fixpoint walk (t : gmap context successors) (prefix : context) (ws : list string) : Prop :=
  match ws with
  | [] => True
  | w :: ws' =>
      (exists n, In (w, n) (successors_of t prefix) /\ (0 < n)%Z) /\
      walk t (slide prefix (Some w)) ws'
  end.

(** The context after generating [ws] from [prefix]. *)
Fixpoint advance (prefix : context) (ws : list string) : context :=
  match ws with
  | [] => prefix
  | w :: ws' => advance (slide prefix (Some w)) ws'
  end.

(** A context whose successors have no positive total. *)
Definition dead_end (t : gmap context successors) (ctx : context) : Prop :=
  (total (successors_of t ctx) <= 0)%Z.

End GeneratorCode.

(** ** Example data *)

(** The order-2 model of [Chain.example_text]: ["the cat saw the cat"]
    and ["the dog"]. *)
Definition example_chain : MarkovChain := process_input (init 2) example_text.

(** Draws: "the", then "dog" (draw 1 of 2 after [None; "the"]), a dead
    end after "the dog", then "the", "cat". *)
Definition example_draws : Replay := mkReplay [0; 1; 0; 0]%Z.

(** A source whose only paragraph has no blank line after it: the table
    stays empty and [output 5] never returns, whatever the fuel. *)
Definition unterminated_chain : MarkovChain := process_input (init 3) ["Hello world."].

(** [example_chain] after a read of the unseen context ["the"; "dog"]. *)
Definition example_chain_touched : MarkovChain :=
  mkChain (order example_chain) (touch (table example_chain) [Some "the"; Some "dog"]).

(** Two one-word sources, read in either order. *)
Definition chain_ab : MarkovChain := process_input (process_input (init 1) ["a"; ""]) ["b"; ""].
Definition chain_ba : MarkovChain := process_input (process_input (init 1) ["b"; ""]) ["a"; ""].

Section GeneratorTheory.
Context {G : Type} `{RandomSource G}.

(** ** Reads do not change what the table says *)

Lemma successors_of_touch t ctx ctx' : successors_of (touch t ctx) ctx' = successors_of t ctx'.
Proof.
  unfold touch, successors_of. destruct (t !! ctx) eqn:E; [done|].
  destruct (decide (ctx = ctx')) as [->|Hne].
  - by rewrite lookup_insert_eq, E.
  - by rewrite lookup_insert_ne.
Qed.

Lemma touch_equiv t ctx : touch t ctx ≃ t.
Proof. intros ctx'. apply successors_of_touch. Qed.

Lemma touch_wf k t ctx : table_wf k t -> (k <> 0 -> length ctx = k) -> table_wf k (touch t ctx).
Proof.
  intros Ht Hctx. unfold touch. destruct (t !! ctx); [done|].
  apply map_Forall_insert_2; [|done]. split; [done|apply succ_wf_nil].
Qed.

Lemma get_chain mc prefix g : chain_equiv (get mc prefix g).1.2 mc.
Proof.
  unfold get. destruct (choice _ g). split; [done|]. apply touch_equiv.
Qed.

#[export] Instance walk_proper : Proper (table_equiv ==> eq ==> eq ==> iff) walk.
Proof.
  intros t1 t2 Ht prefix ? <- ws ? <-. revert prefix.
  induction ws as [|w ws IH]; intros prefix; simpl; [done|]. by rewrite Ht, IH.
Qed.

#[export] Instance dead_end_proper : Proper (table_equiv ==> eq ==> iff) dead_end.
Proof. intros t1 t2 Ht ctx ? <-. unfold dead_end. by rewrite Ht. Qed.

Lemma walk_equiv t1 t2 prefix ws : t1 ≃ t2 -> walk t1 prefix ws -> walk t2 prefix ws.
Proof. intros Ht. by apply walk_proper. Qed.

Lemma dead_end_equiv t1 t2 ctx : t1 ≃ t2 -> dead_end t1 ctx -> dead_end t2 ctx.
Proof. intros Ht. by apply dead_end_proper. Qed.

(** One call of [get]: the chain is unchanged up to equivalence; either
    a dead end and no draw, or a successor of positive count. *)
Lemma get_cases mc prefix g word mc' g' :
  get mc prefix g = (word, mc', g') ->
  chain_equiv mc' mc /\
  match word with
  | None => dead_end (table mc) prefix /\ g' = g
  | Some w =>
      (0 < total (successors_of (table mc) prefix))%Z /\
      exists n, In (w, n) (successors_of (table mc) prefix) /\ (0 < n)%Z
  end.
Proof.
  unfold get. destruct (choice _ g) as [[w|] g1] eqn:Hc; intros [= <- <- <-];
  (split; [split; [done|apply touch_equiv]|]).
  - by eapply choice_some_in.
  - by apply choice_none_total in Hc.
Qed.

(** The [while] loop appends a walk to [result]; it either collects all
    [n] tokens or stops early at a dead end. *)
Lemma output_loop_spec n mc prefix result g dead res mc' g' :
  output_loop n mc prefix result g = (dead, res, mc', g') ->
  chain_equiv mc' mc /\
  exists ws, res = result ++ ws /\ walk (table mc) prefix ws /\
    if dead then (length ws < n)%nat /\ dead_end (table mc) (advance prefix ws)
    else length ws = n.
Proof.
  revert mc prefix result g. induction n as [|n IH]; intros mc prefix result g; simpl.
  - intros [= <- <- <- <-]. split; [done|]. exists []. by rewrite app_nil_r.
  - destruct (get mc prefix g) as [[[w|] mc1] g1] eqn:Hget;
    apply get_cases in Hget as [Hmc1 Hw].
    + intros Hloop. destruct (IH _ _ _ _ Hloop) as [Hmc' (ws & -> & Hwalk & Hdead)].
      split; [by rewrite Hmc'|]. exists (w :: ws).
      rewrite <- app_assoc. split; [done|]. destruct Hmc1 as [_ Ht1].
      rewrite Ht1 in Hwalk. split; [split; [apply Hw|done]|].
      destruct dead; simpl.
      * destruct Hdead as [Hlen Hd]. rewrite Ht1 in Hd. split; [lia|done].
      * lia.
    + intros [= <- <- <- <-]. split; [done|]. exists []. rewrite app_nil_r.
      split_and!; [done|done|simpl; lia|]. by destruct Hw.
Qed.

Lemma get_chain_eq mc prefix g word mc' g' :
  get mc prefix g = (word, mc', g') -> mc' = mkChain (order mc) (touch (table mc) prefix).
Proof. unfold get. destruct (choice _ g). by intros [= _ <- _]. Qed.

Lemma output_loop_wf n mc prefix result g dead res mc' g' :
  output_loop n mc prefix result g = (dead, res, mc', g') ->
  chain_wf mc -> (order mc <> 0 -> length prefix = order mc) -> chain_wf mc'.
Proof.
  revert mc prefix result g. induction n as [|n IH]; intros mc prefix result g; simpl.
  - by intros [= _ _ <- _].
  - destruct (get mc prefix g) as [[[w|] mc1] g1] eqn:Hget;
    apply get_chain_eq in Hget as ->; intros Hloop Hwf Hp.
    + eapply IH; [exact Hloop|by apply touch_wf|]. simpl. intros Hk.
      rewrite length_slide; [by apply Hp|]. intros ->. simpl in Hp. lia.
    + injection Hloop as _ _ <- _. by apply touch_wf.
Qed.

(** ** Lemmas: when [output] returns *)

(** A dead start context: [output] never returns, whatever the fuel. *)
Lemma output_dead_none fuel len mc g :
  (0 < len)%nat ->
  (total (successors_of (table mc) (replicate (order mc) None)) <= 0)%Z ->
  output fuel mc len g = None.
Proof.
  revert mc g. induction fuel as [|fuel IH]; intros mc g Hlen Hdead; [done|].
  destruct len as [|n]; [lia|]. simpl.
  destruct (get mc (replicate (order mc) None) g) as [[[w|] mc1] g1] eqn:Hget;
  apply get_cases in Hget as [[Ho Ht] Hw].
  - lia.
  - rewrite Nat.sub_0_r, IH; [done|lia|]. by rewrite Ho, Ht.
Qed.

(** A live start context: [max 1 len] units of fuel suffice, because
    every call but the last ends a segment of at least one token and
    asks for at least one more. *)
Lemma output_returns_at fuel len mc g :
  (Nat.max 1 len <= fuel)%nat ->
  len = 0 \/ (0 < total (successors_of (table mc) (replicate (order mc) None)))%Z ->
  exists s mc' g', output fuel mc len g = Some (s, mc', g').
Proof.
  revert fuel mc g. induction len as [len IH] using lt_wf_ind.
  intros [|fuel] mc g Hfuel Hlive; [lia|]. simpl.
  destruct (output_loop len mc (replicate (order mc) None) [] g) as [[[dead res] mc1] g1] eqn:Hloop.
  apply output_loop_spec in Hloop as [[Ho Ht] (ws & -> & _ & Hdead)].
  destruct dead; [|by eauto]. destruct Hdead as [Hlen Hd].
  assert (Htot : (0 < total (successors_of (table mc) (replicate (order mc) None)))%Z)
  by (destruct Hlive; [lia|done]).
  assert (Hws : ws <> []) by (intros ->; unfold dead_end in Hd; simpl in Hd; lia).
  destruct ws as [|w ws]; [done|]. simpl in *.
  destruct (IH (len - S (length ws)) ltac:(lia) fuel mc1 g1) as (s & mc2 & g2 & ->);
  [lia| |by eauto].
  right. by rewrite Ho, Ht.
Qed.

(** ** Theorems: termination *)

(** C3: [output] returns, with any fuel above the requested length,
    when the length is 0 or the start context has successors: every
    recursive call after a dead end has emitted at least one token. *)
Theorem output_terminates (fuel len : nat) (mc : MarkovChain) (g : G) :
  (len < fuel)%nat ->
  len = 0 \/ (0 < total (successors_of (table mc) (replicate (order mc) None)))%Z ->
  exists s mc' g', output fuel mc len g = Some (s, mc', g').
Proof. intros Hfuel. apply output_returns_at. lia. Qed.

(** C5: when the start context has no successors (an empty table, or a
    source whose only paragraph has no blank line after it), [output] of
    a positive length never returns: each call hits the dead end before
    emitting a token and calls itself with the same length, the
    unbounded recursion that Python ends with a [RecursionError]. *)
Theorem output_diverges (fuel len : nat) (mc : MarkovChain) (g : G) :
  (0 < len)%nat ->
  (total (successors_of (table mc) (replicate (order mc) None)) <= 0)%Z ->
  output fuel mc len g = None.
Proof. apply output_dead_none. Qed.

(** ** Theorems: what [output] returns *)

(** C2: the text [output] returns is a list of segments joined with
    paragraph breaks; the segments hold [length] tokens in all; each
    segment is generated from the start markers through n-grams of
    positive count; and every segment but the last stops at a context
    with no successors, where the code starts a new paragraph. *)
Theorem output_segments (fuel len : nat) (mc : MarkovChain) (g : G) (s : string) (mc' : MarkovChain) (g' : G) :
  output fuel mc len g = Some (s, mc', g') ->
  exists segs, segs <> [] /\
    s = py_join paragraph_break (map join segs) /\
    sum_list_with length segs = len /\
    Forall (walk (table mc) (replicate (order mc) None)) segs /\
    Forall (fun seg => dead_end (table mc) (advance (replicate (order mc) None) seg)) (removelast segs).
Proof.
  revert len mc g s mc' g'. induction fuel as [|fuel IH]; intros len mc g s mc' g' Hout; [done|].
  simpl in Hout.
  destruct (output_loop len mc (replicate (order mc) None) [] g) as [[[dead res] mc1] g1] eqn:Hloop.
  apply output_loop_spec in Hloop as [[Ho Ht] (ws & -> & Hwalk & Hdead)]. simpl in *.
  destruct dead.
  - destruct (output fuel mc1 (len - length ws) g1) as [[[rest mc2] g2]|] eqn:Hrest; [|done].
    injection Hout as <- <- <-. destruct Hdead as [Hlen Hd].
    destruct (IH _ _ _ _ _ _ Hrest) as (segs & Hne & -> & Hsum & Hwalks & Hdeads).
    rewrite Ho in Hwalks, Hdeads.
    exists (ws :: segs). split_and!; [done| |simpl; lia|..].
    + by destruct segs.
    + constructor; [done|]. eapply Forall_impl; [exact Hwalks|]. intros seg. by apply walk_equiv.
    + destruct segs as [|seg segs]; [done|]. constructor; [done|].
      eapply Forall_impl; [exact Hdeads|]. intros seg'. by apply dead_end_equiv.
  - injection Hout as <- <- <-. exists [ws]. split_and!; simpl; try done; [lia|by constructor].
Qed.

(** C7: generation leaves the model equivalent to what it was: the
    reads of [self.table] only add contexts with an empty successor
    map, so every later read and count is unchanged, and the table
    invariant still holds. *)
Theorem output_frame (fuel len : nat) (mc : MarkovChain) (g : G) (s : string) (mc' : MarkovChain) (g' : G) :
  output fuel mc len g = Some (s, mc', g') ->
  chain_equiv mc' mc /\ (chain_wf mc -> chain_wf mc').
Proof.
  revert len mc g s mc' g'. induction fuel as [|fuel IH]; intros len mc g s mc' g' Hout; [done|].
  simpl in Hout.
  destruct (output_loop len mc (replicate (order mc) None) [] g) as [[[dead res] mc1] g1] eqn:Hloop.
  pose proof (output_loop_wf _ _ _ _ _ _ _ _ _ Hloop) as Hwf1.
  apply output_loop_spec in Hloop as [Hmc1 _].
  assert (Hwf : chain_wf mc -> chain_wf mc1) by (intros; apply Hwf1; [done|]; intros; apply length_replicate).
  destruct dead.
  - destruct (output fuel mc1 _ g1) as [[[rest mc2] g2]|] eqn:Hrest; [|done].
    injection Hout as <- <- <-. destruct (IH _ _ _ _ _ _ Hrest) as [Hmc2 Hwf2].
    split; [by rewrite Hmc2|]. auto.
  - injection Hout as <- <- <-. done.
Qed.

(** ** Theorems: fuel and equivalent chains *)

(** Every call of [get] depends on the table only through
    [successors_of]. *)
Lemma get_equiv mc1 mc2 prefix g :
  chain_equiv mc1 mc2 ->
  (get mc1 prefix g).1.1 = (get mc2 prefix g).1.1 /\
  (get mc1 prefix g).2 = (get mc2 prefix g).2 /\
  chain_equiv (get mc1 prefix g).1.2 (get mc2 prefix g).1.2.
Proof.
  intros [Ho Ht]. unfold get. rewrite (Ht prefix).
  destruct (choice _ g) as [w g']. simpl. split_and!; [done|done|].
  split; [done|]. simpl. by rewrite !touch_equiv.
Qed.

Lemma output_loop_equiv n mc1 mc2 prefix result g :
  chain_equiv mc1 mc2 ->
  let r1 := output_loop n mc1 prefix result g in
  let r2 := output_loop n mc2 prefix result g in
  r1.1.1.1 = r2.1.1.1 /\ r1.1.1.2 = r2.1.1.2 /\ r1.2 = r2.2 /\ chain_equiv r1.1.2 r2.1.2.
Proof.
  revert mc1 mc2 prefix result g. induction n as [|n IH]; intros mc1 mc2 prefix result g Heq; simpl; [done|].
  destruct (get_equiv mc1 mc2 prefix g Heq) as (Hw & Hg & Hmc).
  destruct (get mc1 prefix g) as [[w1 mc1'] g1], (get mc2 prefix g) as [[w2 mc2'] g2].
  simpl in *. subst w2 g2. destruct w1 as [w|]; [by apply IH|done].
Qed.

(** C11: two chains that differ only by contexts with no successors,
    such as a chain before and after a generation call, produce the same
    text from the same random source: the entries [get] adds are never
    observed. *)
Theorem output_equiv (fuel len : nat) (mc1 mc2 : MarkovChain) (g : G) :
  chain_equiv mc1 mc2 ->
  option_map (fun r => (r.1.1, r.2)) (output fuel mc1 len g) =
  option_map (fun r => (r.1.1, r.2)) (output fuel mc2 len g).
Proof.
  revert len mc1 mc2 g. induction fuel as [|fuel IH]; intros len mc1 mc2 g Heq; [done|]. simpl.
  destruct Heq as [Ho Ht]. rewrite Ho.
  destruct (output_loop_equiv len mc1 mc2 (replicate (order mc2) None) [] g) as (Hd & Hr & Hg & Hmc);
    [by split|].
  destruct (output_loop len mc1 _ [] g) as [[[d1 res1] mc1'] g1],
    (output_loop len mc2 _ [] g) as [[[d2 res2] mc2'] g2].
  simpl in *. subst d2 res2 g2. destruct d1; [|done].
  specialize (IH (len - length res1) mc1' mc2' g1 Hmc).
  destruct (output fuel mc1' _ g1) as [[[r1 m1] h1]|], (output fuel mc2' _ g1) as [[[r2 m2] h2]|];
    simpl in *; congruence.
Qed.

End GeneratorTheory.

(** ** Ingestion order *)

(** The counts of [chain_ab] and [chain_ba] agree, but the order of
    their successors does not, and [choice] scans them in that order:
    with the same draw, [get] returns a different word. *)
Example ingestion_order_observable :
  (forall ctx w, count (table chain_ab) ctx w = count (table chain_ba) ctx w) /\
  (get chain_ab [None] (mkReplay [0%Z])).1.1 = Some "a" /\
  (get chain_ba [None] (mkReplay [0%Z])).1.1 = Some "b".
Proof.
  split; [|split; vm_compute; reflexivity].
  intros ctx w. unfold chain_ab, chain_ba. rewrite !count_process_input_from. simpl. lia.
Qed.

(** ** Witnesses *)

Lemma output_terminates_witness :
  (4 < 5)%nat /\
  (0 < total (successors_of (table example_chain) (replicate (order example_chain) None)))%Z /\
  exists s mc' g', output 5 example_chain 4 example_draws = Some (s, mc', g').
Proof.
  assert (Hf : (4 < 5)%nat) by lia.
  assert (Ht : (0 < total (successors_of (table example_chain) (replicate (order example_chain) None)))%Z)
  by (vm_compute; reflexivity).
  split_and!; [exact Hf|exact Ht|exact (output_terminates 5 4 example_chain example_draws Hf (or_intror Ht))].
Defined.

Lemma output_diverges_witness :
  (0 < 5)%nat /\
  (total (successors_of (table unterminated_chain) (replicate (order unterminated_chain) None)) <= 0)%Z /\
  output 1000 unterminated_chain 5 example_draws = None.
Proof.
  assert (Hl : (0 < 5)%nat) by lia.
  assert (Ht : (total (successors_of (table unterminated_chain) (replicate (order unterminated_chain) None)) <= 0)%Z)
  by (vm_compute; discriminate).
  split_and!; [exact Hl|exact Ht|exact (output_diverges 1000 5 unterminated_chain example_draws Hl Ht)].
Defined.

Lemma output_segments_witness :
  exists s mc' g', output 5 example_chain 4 example_draws = Some (s, mc', g') /\
  exists segs, segs <> [] /\
    s = py_join paragraph_break (map join segs) /\
    sum_list_with length segs = 4%nat /\
    Forall (walk (table example_chain) (replicate (order example_chain) None)) segs /\
    Forall (fun seg => dead_end (table example_chain) (advance (replicate (order example_chain) None) seg))
      (removelast segs).
Proof.
  destruct (output 5 example_chain 4 example_draws) as [[[s mc'] g']|] eqn:E;
  [|vm_compute in E; discriminate].
  exists s, mc', g'. split; [done|]. exact (output_segments 5 4 example_chain example_draws s mc' g' E).
Defined.

(** The run reads the unseen context ["the"; "dog"], which the
    defaultdict adds to the table with no successors. *)
Lemma output_frame_witness :
  exists s mc' g', output 5 example_chain 4 example_draws = Some (s, mc', g') /\
  chain_equiv mc' example_chain /\ (chain_wf example_chain -> chain_wf mc') /\
  table mc' !! [Some "the"; Some "dog"] = Some [] /\
  table example_chain !! [Some "the"; Some "dog"] = None.
Proof.
  destruct (output 5 example_chain 4 example_draws) as [[[s mc'] g']|] eqn:E;
  [|vm_compute in E; discriminate].
  exists s, mc', g'. split; [done|].
  destruct (output_frame 5 4 example_chain example_draws s mc' g' E) as [Heq Hwf].
  split_and!; [exact Heq|exact Hwf| |vm_compute; reflexivity].
  vm_compute in E. injection E as _ <- _. vm_compute. reflexivity.
Defined.

Lemma output_equiv_witness :
  chain_equiv example_chain_touched example_chain /\
  option_map (fun r => (r.1.1, r.2)) (output 5 example_chain_touched 4 example_draws) =
  option_map (fun r => (r.1.1, r.2)) (output 5 example_chain 4 example_draws).
Proof.
  assert (H : chain_equiv example_chain_touched example_chain) by (split; [done|apply touch_equiv]).
  split; [exact H | exact (output_equiv 5 4 _ _ example_draws H)].
Defined.
