(* ===== verification/GenStep.v ===== *)
(** * The loop of [output] as a transition system

    [Generator.v] models the [while] loop of [output] (src/markov.py,
    lines 72-77) as the structurally recursive [output_loop].  This file
    reads the same lines as a small-step relation [loop_step] on the
    loop's variables ([self], [prefix], [result], the random source and
    [length - len(result)]), with one rule per way an iteration can
    end: the loop test fails, [get] returns a word and the prefix
    slides, or [get] returns [None] and the loop leaves by line 75.

    Theorems, by rule induction on the steps: the loop halts within
    [left + 1] iterations; every state it reaches keeps the table
    invariant and a prefix of [order] entries; and in every state it
    reaches, [result] is what it started with followed by a walk through
    observed n-grams, [prefix] is the context after that walk, and
    [len(result) + left] is constant.  [loop_run_rtc] shows that the
    final state [output_loop] computes is reachable, which the
    witnesses use to run the machine on concrete chains. *)

From Stdlib Require Import ZArith Lia String.
From stdpp Require Import base list gmap relations strings.
From S2P Require Import Prelude PyStr Sampler Detokenizer Chain Generator.

Local Open Scope string_scope.
Local Open Scope list_scope.
Local Open Scope markov_scope.

Section LoopMachine.
Context {G : Type} `{RandomSource G}.

(** ** The loop of [output] as a small-step machine *)

(** The variables of the loop at the test [len(result) < length]
    ([Running], with [left = length - len(result)]), or the values it
    leaves when it ends ([Halted], [dead] when it left by line 75). *)
Inductive loop_state :=
| Running (mc : MarkovChain) (prefix : context) (result : list string) (g : G) (left : nat)
| Halted (dead : bool) (result : list string) (mc : MarkovChain) (g : G).

(** One iteration of lines 72-77. *)
Inductive loop_step : loop_state -> loop_state -> Prop :=
| loop_exit mc prefix result g :
    loop_step (Running mc prefix result g 0) (Halted false result mc g)
| loop_emit mc prefix result g n word mc' g' :
    get mc prefix g = (Some word, mc', g') ->
    loop_step (Running mc prefix result g (S n))
              (Running mc' (slide prefix (Some word)) (result ++ [word]) g' n)
| loop_break mc prefix result g n mc' g' :
    get mc prefix g = (None, mc', g') ->
    loop_step (Running mc prefix result g (S n)) (Halted true result mc' g').

(** The final state that [output_loop] computes from a state. *)
Definition loop_run (s : loop_state) : loop_state :=
  match s with
  | Running mc prefix result g n =>
      let '(dead, res, mc', g') := output_loop n mc prefix result g in Halted dead res mc' g'
  | Halted _ _ _ _ => s
  end.

Definition halted (s : loop_state) : bool :=
  match s with Halted _ _ _ _ => true | Running _ _ _ _ _ => false end.

(** The table invariant on the loop's chain, and the prefix length
    that keeps it ([Chain.table_wf] asks contexts of [order] entries). *)
Definition loop_wf (s : loop_state) : Prop :=
  match s with
  | Running mc prefix _ _ _ => chain_wf mc /\ (order mc <> 0 -> length prefix = order mc)
  | Halted _ _ mc _ => chain_wf mc
  end.

(** What the loop has done since the state
    [Running mc0 prefix0 result0 _ n0]: the chain read is equivalent to
    [mc0], the tokens appended are a walk [ws] from [prefix0], and the
    counters agree with it. *)
Definition loop_trace (mc0 : MarkovChain) (prefix0 : context) (result0 : list string) (n0 : nat)
    (s : loop_state) : Prop :=
  match s with
  | Running mc prefix result _ n =>
      chain_equiv mc mc0 /\
      exists ws, result = result0 ++ ws /\ walk (table mc0) prefix0 ws /\
        prefix = advance prefix0 ws /\ (length ws + n = n0)%nat
  | Halted dead result mc _ =>
      chain_equiv mc mc0 /\
      exists ws, result = result0 ++ ws /\ walk (table mc0) prefix0 ws /\
        if dead then (length ws < n0)%nat /\ dead_end (table mc0) (advance prefix0 ws)
        else length ws = n0
  end.

(** ** Runs of the loop *)

(** The start state of the loop of [output(length)]. *)
Definition loop_start (mc : MarkovChain) (len : nat) (g : G) : loop_state :=
  Running mc (replicate (order mc) None) [] g len.

(** The final state [output_loop] computes is reachable. *)
Lemma loop_run_rtc s : rtc loop_step s (loop_run s).
Proof.
  destruct s as [mc prefix result g n|]; [|apply rtc_refl]. simpl.
  revert mc prefix result g. induction n as [|n IH]; intros mc prefix result g; simpl.
  - apply rtc_once, loop_exit.
  - destruct (get mc prefix g) as [[[w|] mc1] g1] eqn:Hget.
    + eapply rtc_l; [by apply loop_emit|]. apply IH.
    + apply rtc_once. by apply loop_break.
Qed.

(** ** Lemmas: the invariants hold step by step *)

Lemma advance_app prefix ws ws' : advance prefix (ws ++ ws') = advance (advance prefix ws) ws'.
Proof. revert prefix. induction ws as [|w ws IH]; intros prefix; simpl; auto. Qed.

Lemma walk_app t prefix ws ws' :
  walk t prefix (ws ++ ws') <-> walk t prefix ws /\ walk t (advance prefix ws) ws'.
Proof.
  revert prefix. induction ws as [|w ws IH]; intros prefix; simpl; [tauto|].
  rewrite IH. tauto.
Qed.

Lemma get_wf mc prefix g word mc' g' :
  get mc prefix g = (word, mc', g') ->
  chain_wf mc -> (order mc <> 0 -> length prefix = order mc) -> chain_wf mc' /\ order mc' = order mc.
Proof. intros Hget Hwf Hp. apply get_chain_eq in Hget as ->. split; [by apply touch_wf|done]. Qed.

Lemma loop_step_wf s s' : loop_step s s' -> loop_wf s -> loop_wf s'.
Proof.
  destruct 1 as [| ? prefix ? ? ? ? ? ? Hget | ? ? ? ? ? ? ? Hget]; simpl; [tauto| |];
  intros [Hwf Hp]; destruct (get_wf _ _ _ _ _ _ Hget Hwf Hp) as [Hwf' Ho]; [|done].
  split; [done|]. rewrite Ho. intros Hk.
  rewrite length_slide; [by apply Hp|]. intros ->. simpl in Hp. lia.
Qed.

Lemma loop_step_trace mc0 prefix0 result0 n0 s s' :
  loop_step s s' -> loop_trace mc0 prefix0 result0 n0 s -> loop_trace mc0 prefix0 result0 n0 s'.
Proof.
  destruct 1 as [| mc prefix result g n w mc' g' Hget | mc prefix result g n mc' g' Hget]; simpl.
  - intros [? (ws & ? & ? & _ & ?)]. split; [done|]. exists ws. split_and!; [done|done|lia].
  - apply get_cases in Hget as [Hmc [_ Hw]].
    intros [[Ho Ht] (ws & -> & Hwalk & -> & Hlen)]. split.
    { by rewrite Hmc. }
    exists (ws ++ [w]). rewrite !app_assoc, walk_app, advance_app, length_app. simpl.
    split_and!; try done; try lia. by rewrite <- Ht.
  - apply get_cases in Hget as [Hmc [Hd _]].
    intros [[Ho Ht] (ws & -> & Hwalk & -> & Hlen)]. split.
    { by rewrite Hmc. }
    exists ws. split_and!; [done|done|lia|]. by rewrite <- Ht.
Qed.

Lemma loop_trace_rtc mc0 prefix0 result0 n0 s s' :
  rtc loop_step s s' -> loop_trace mc0 prefix0 result0 n0 s -> loop_trace mc0 prefix0 result0 n0 s'.
Proof. induction 1; eauto using loop_step_trace. Qed.

End LoopMachine.

Section LoopTheorems.
Context {G : Type} `{RandomSource G}.

(** ** Theorems: termination and invariants of the loop *)

(** C26: the loop ends after at most [left + 1] iterations, in a halted
    state: the [while] test of line 72 fails, or [get] returns [None]. *)
Theorem loop_terminates mc prefix result (g : G) n :
  exists k h, (k <= n)%nat /\ nsteps loop_step (S k) (Running mc prefix result g n) h /\ halted h = true.
Proof.
  revert mc prefix result g. induction n as [|n IH]; intros mc prefix result g.
  - exists 0%nat, (Halted false result mc g). split_and!; [lia| |done]. apply nsteps_once, loop_exit.
  - destruct (get mc prefix g) as [[[w|] mc1] g1] eqn:Hget.
    + destruct (IH mc1 (slide prefix (Some w)) (result ++ [w]) g1) as (k & h & Hk & Hsteps & Hh).
      exists (S k), h. split_and!; [lia| |done]. eapply nsteps_l; [by apply loop_emit|done].
    + exists 0%nat, (Halted true result mc1 g1). split_and!; [lia| |done].
      apply nsteps_once. by apply loop_break.
Qed.

(** C25: every state the loop reaches from a well-formed state is
    well-formed: the table invariant holds, and [prefix] keeps [order]
    entries, in every iteration (rule induction on the steps). *)
Theorem loop_reachable_wf (s s' : loop_state (G:=G)) :
  rtc loop_step s s' -> loop_wf s -> loop_wf s'.
Proof. induction 1; eauto using loop_step_wf. Qed.

(** C8: in every state the loop reaches, [result] is what it started
    with followed by a walk [ws] through observed n-grams from the
    start prefix, [prefix] is the context after [ws], and
    [len(result) + left] is unchanged; a halted state stopped at a dead
    end or after all [n0] tokens. *)
Theorem loop_reachable_trace mc0 prefix0 result0 (g0 : G) n0 s :
  rtc loop_step (Running mc0 prefix0 result0 g0 n0) s -> loop_trace mc0 prefix0 result0 n0 s.
Proof.
  intros Hrtc. eapply loop_trace_rtc; [exact Hrtc|]. split; [done|].
  exists []. by rewrite app_nil_r.
Qed.

End LoopTheorems.

(** ** Witnesses *)

(** The empty order-2 chain: the loop breaks at once. *)
Lemma loop_reachable_wf_witness :
  rtc loop_step (loop_start (init 2) 3 (mkReplay [0%Z]))
      (loop_run (loop_start (init 2) 3 (mkReplay [0%Z]))) /\
  loop_wf (loop_start (init 2) 3 (mkReplay [0%Z])) /\
  loop_wf (loop_run (loop_start (init 2) 3 (mkReplay [0%Z]))).
Proof.
  assert (Hr := loop_run_rtc (loop_start (init 2) 3 (mkReplay [0%Z]))).
  assert (Hw : loop_wf (loop_start (init 2) 3 (mkReplay [0%Z]))) by (split; [apply init_wf|done]).
  split_and!; [exact Hr|exact Hw|exact (loop_reachable_wf _ _ Hr Hw)].
Defined.

(** Three iterations on [example_chain] with the draws [example_draws]:
    "the", "dog", then a dead end. *)
Lemma loop_reachable_trace_witness :
  loop_run (loop_start example_chain 3 example_draws) =
    Halted true ["the"; "dog"]
      (mkChain 2 (touch (table example_chain) [Some "the"; Some "dog"])) (mkReplay [0; 0]%Z) /\
  loop_trace example_chain [None; None] [] 3 (loop_run (loop_start example_chain 3 example_draws)).
Proof.
  split; [vm_compute; reflexivity|].
  exact (loop_reachable_trace example_chain [None; None] [] example_draws 3 _
           (loop_run_rtc (loop_start example_chain 3 example_draws))).
Defined.

