(* ===== verification/Driver.v ===== *)
(** * The driver script (src/markov.py, lines 81-90)

    The module-level code builds an order-3 model, ingests
    [lovecraft_collected_stories.txt] once and
    [thus_spake_zarathustra.txt] three times (lines 81-87), then prints
    [mc.output(5000)] and an empty line (lines 89-90).

    Opening a file is I/O: a source is the list of lines its file object
    yields, and [file_lines] is the list Python's file iteration yields
    for a file of the given lines, each with its ["\n"].  What the
    script writes is an [outcome]: the text printed, or the
    [RecursionError] that the recursion of [output] (line 75) raises.
    The recursion limit of the interpreter is the parameter [limit] of
    [main], the number of nested [output] calls it allows; CPython's
    default limit of 1000 frames allows a few less than 1000, since the
    module frame and the frames of [get] and [choice] count too.

    Theorems: the model the script builds counts each n-gram of the
    first source once and each n-gram of the second three times; the
    ["\n"] ending each line changes
    nothing; the recursion depth of [output(length)] is at most
    [max 1 length], so a limit of 5000 nested calls always suffices,
    and a source of one-word paragraphs needs all 5000, so any lower
    limit raises [RecursionError]; with a live start context and a
    large enough limit the script prints. *)

From Stdlib Require Import ZArith Lia Ascii String.
From stdpp Require Import base list strings gmap.
From S2P Require Import Prelude PyStr Sampler Paragraphs Tokenizer Detokenizer Chain Generator.

Local Open Scope string_scope.
Local Open Scope list_scope.
Local Open Scope markov_scope.

#[local] Arguments append : simpl nomatch.

(** ** The code *)

(** What the script writes to standard output, or the exception that
    ends it. *)
Inductive outcome :=
| Printed (stdout : string)
| RecursionError.

(** ["\n"], which [print] writes after its argument. *)
Definition newline : string := String "010" EmptyString.

(** The lines Python's file iteration yields for a file whose lines are
    [ls], each ended by ["\n"]. *)
Definition file_lines (ls : list string) : list string := map (fun l => l +:+ newline) ls.

(** Lines 81-87: [mc = MarkovChain(3)], one pass over the first source,
    and [for i in range(3)] passes over the second. *)
Definition build_model (lovecraft zarathustra : list string) : MarkovChain :=
  fold_left (fun mc (_ : nat) => process_input mc zarathustra) (seq 0 3)
    (process_input (init 3) lovecraft).

Section DriverCode.
Context {G : Type} `{RandomSource G}.

(** Lines 81-90: [print(mc.output(5000))] then [print()]; [limit]
    nested calls of [output] before [RecursionError]. *)
Definition main (limit : nat) (lovecraft zarathustra : list string) (g : G) : outcome :=
  match output limit (build_model lovecraft zarathustra) 5000 g with
  | Some (s, _, _) => Printed (s +:+ newline +:+ newline)
  | None => RecursionError
  end.

End DriverCode.

(** ** The specification *)

(** The (context, word) pairs of a source's paragraphs, each windowed
    from its own start markers. *)
Definition paragraph_ngrams (k : nat) (text : list string) : list (context * string) :=
  concat (map (fun p => ngrams k (tokenize p)) (get_paragraphs text)).

(** ** Example data *)

(** A source of one one-word paragraph: after the word, the context is
    dead. *)
Definition one_word_source : list string := ["a"; ""].

(** ** Lemmas: file lines *)

Lemma is_blank_newline l : is_blank (l +:+ newline) = is_blank l.
Proof. unfold is_blank, strip_ws, newline. fold (chr "010"). by rewrite strip_by_app_chr. Qed.

Lemma split_ws_newline l : split_ws (l +:+ newline) = split_ws l.
Proof. unfold newline. fold (chr "010"). by rewrite split_ws_app_chr. Qed.

Lemma get_paragraphs_from_file_lines p1 p2 text :
  String.eqb p1 "" = String.eqb p2 "" -> split_ws p1 = split_ws p2 ->
  map split_ws (get_paragraphs_from p1 (file_lines text)) = map split_ws (get_paragraphs_from p2 text).
Proof.
  revert p1 p2. induction text as [|l text IH]; intros p1 p2 He Hs; [done|]. simpl.
  rewrite is_blank_newline. destruct (is_blank l).
  - rewrite He. destruct (String.eqb p2 ""); simpl; [by apply IH|]. f_equal; [done|]. by apply IH.
  - apply IH; [by destruct p1, p2|].
    rewrite !split_ws_app_space by done. by rewrite Hs, split_ws_newline.
Qed.

Lemma map_tokenize_split_ws ps1 ps2 :
  map split_ws ps1 = map split_ws ps2 -> map tokenize ps1 = map tokenize ps2.
Proof.
  revert ps2. induction ps1 as [|p1 ps1 IH]; intros [|p2 ps2]; simpl; try done.
  intros [= Hp Hps]. unfold tokenize at 1 3. rewrite Hp. f_equal. by apply IH.
Qed.

(** ** Lemmas: the model the script builds *)

Lemma build_model_order lc zt : order (build_model lc zt) = 3.
Proof. reflexivity. Qed.

Lemma build_model_unfold lc zt :
  build_model lc zt = process_input (process_input (process_input (process_input (init 3) lc) zt) zt) zt.
Proof. reflexivity. Qed.

Section DriverLemmas.
Context {G : Type} `{RandomSource G}.

(** A start context with a single successor [w] after which the context
    is dead: every call of [output] emits one token, so [output(len)]
    needs [len] nested calls. *)
Lemma output_single_word fuel len mc (g : G) w c :
  successors_of (table mc) (replicate (order mc) None) = [(w, c)] -> (0 < c)%Z ->
  dead_end (table mc) (slide (replicate (order mc) None) (Some w)) ->
  (fuel < len)%nat -> output fuel mc len g = None.
Proof.
  revert len mc g. induction fuel as [|fuel IH]; intros len mc g Hs Hc Hd Hf; [done|].
  destruct len as [|[|n]]; [lia|lia|]. simpl.
  destruct (get mc (replicate (order mc) None) g) as [[[w'|] mc1] g1] eqn:Hget;
  apply get_cases in Hget as [[Ho Ht] Hw]; unfold table_equiv in Ht.
  - destruct Hw as [_ (n' & Hin & _)]. rewrite Hs in Hin. destruct Hin as [[= <- _]|[]].
    destruct (get mc1 (slide (replicate (order mc) None) (Some w)) g1) as [[[w2|] mc2] g2] eqn:Hget2;
    apply get_cases in Hget2 as [[Ho2 Ht2] Hw2]; unfold table_equiv in Ht2.
    + exfalso. destruct Hw2 as [Hpos _]. unfold dead_end in Hd. rewrite Ht in Hpos. lia.
    + simpl. rewrite IH; [done| |done| |lia].
      * by rewrite Ho2, Ho, Ht2, Ht.
      * unfold dead_end in *. by rewrite Ho2, Ho, Ht2, Ht.
  - exfalso. destruct Hw as [Hdead _]. unfold dead_end in Hdead. rewrite Hs in Hdead. simpl in Hdead. lia.
Qed.

End DriverLemmas.

Section DriverTheorems.
Context {G : Type} `{RandomSource G}.

(** ** Theorems: the recursion depth of [output] *)

(** C27: the recursion of [output(length)] is at most [max 1 length]
    calls deep: a result obtained with any fuel is obtained with
    [max 1 length] units, because each call but the last emits at
    least one token and leaves at least one to emit. *)
Theorem output_depth_bound fuel fuel' mc len (g : G) r :
  output fuel mc len g = Some r -> (Nat.max 1 len <= fuel')%nat -> output fuel' mc len g = Some r.
Proof.
  revert fuel' mc len g r. induction fuel as [|fuel IH]; intros fuel' mc len g r Hout Hf; [done|].
  destruct fuel' as [|fuel']; [lia|]. simpl in *.
  destruct (output_loop len mc (replicate (order mc) None) [] g) as [[[dead res] mc1] g1] eqn:Hloop;
  [destruct dead; [|done]].
  destruct (output fuel mc1 _ g1) as [[[rest mc2] g2]|] eqn:Hrest; [|done].
  apply output_loop_spec in Hloop as [[Ho Ht] (ws & -> & _ & Hlen & Hd)].
  destruct ws as [|w ws].
  - rewrite output_dead_none in Hrest; [done|simpl in *; lia|]. unfold dead_end in Hd. by rewrite Ho, Ht.
  - simpl in *. by rewrite (IH _ _ _ _ _ Hrest) by lia.
Qed.

(** ** Theorems: the script *)

(** C28: the model the script builds counts, for every context and
    word, the occurrences of that n-gram in the paragraphs of the first
    source once and in those of the second source three times. *)
Theorem build_model_counts (lc zt : list string) (ctx : context) (w : string) :
  count (table (build_model lc zt)) ctx w =
  (Z.of_nat (occurrences (paragraph_ngrams 3 lc) (ctx, w)) +
   3 * Z.of_nat (occurrences (paragraph_ngrams 3 zt) (ctx, w)))%Z.
Proof.
  rewrite build_model_unfold, !count_process_input_from. simpl.
  unfold count at 1, successors_of. rewrite lookup_empty. simpl.
  assert (Hm : forall ps, map (fun p => ngrams_from [None; None; None] (tokenize p)) ps =
                          map (fun p => ngrams 3 (tokenize p)) ps)
    by (intros; apply map_ext; intros; apply (ngrams_from_start 3); lia).
  unfold paragraph_ngrams. rewrite !Hm. lia.
Qed.

(** C29: the ["\n"] that Python's file iteration leaves at the end of
    each line changes nothing: [process_input] over the lines with
    their newlines builds the same table as over the bare lines. *)
Theorem process_input_file_lines (mc : MarkovChain) (text : list string) :
  process_input mc (file_lines text) = process_input mc text.
Proof.
  unfold process_input. f_equal. apply fold_ingest_paragraph_tokens, map_tokenize_split_ws.
  by apply get_paragraphs_from_file_lines.
Qed.

(** C30: with a recursion limit of at least 5000 nested calls and a
    start context with successors, the script prints the text [output]
    returns, followed by two newlines. *)
Theorem main_prints (limit : nat) (lc zt : list string) (g : G) :
  (5000 <= limit)%nat ->
  (0 < total (successors_of (table (build_model lc zt)) [None; None; None]))%Z ->
  exists s mc' g', output limit (build_model lc zt) 5000 g = Some (s, mc', g') /\
    main limit lc zt g = Printed (s +:+ newline +:+ newline).
Proof.
  intros Hlim Hlive.
  destruct (output_returns_at limit 5000 (build_model lc zt) g) as (s & mc' & g' & Hout);
  [lia|by right|].
  exists s, mc', g'. split; [done|]. unfold main. by rewrite Hout.
Qed.

(** C31: the depth bound is reached: when every paragraph of the
    sources is the same single word, each call of [output] emits one
    token, and any recursion limit below 5000 nested calls, CPython's
    default of 1000 frames among them, makes the script raise
    [RecursionError]. *)
Theorem main_recursion_limit (limit : nat) (lc zt : list string) (g : G) (w : string) (c : Z) :
  (limit < 5000)%nat ->
  successors_of (table (build_model lc zt)) [None; None; None] = [(w, c)] -> (0 < c)%Z ->
  dead_end (table (build_model lc zt)) [None; None; Some w] ->
  main limit lc zt g = RecursionError.
Proof.
  intros Hlim Hs Hc Hd. unfold main. by rewrite (output_single_word _ _ _ _ w c).
Qed.

End DriverTheorems.

(** ** Witnesses *)

(** [output(4)] on [example_chain] recurses twice; fuel 4 is enough. *)
Lemma output_depth_bound_witness :
  exists r, output 6 example_chain 4 example_draws = Some r /\ (Nat.max 1 4 <= 4)%nat /\
    output 4 example_chain 4 example_draws = Some r.
Proof.
  destruct (output 6 example_chain 4 example_draws) as [r|] eqn:E; [|vm_compute in E; discriminate].
  exists r. split_and!; [done|lia|].
  exact (output_depth_bound 6 4 example_chain 4 example_draws r E ltac:(lia)).
Defined.

(** The two example paragraphs of [Chain.example_text] as the two
    sources. *)
Lemma main_prints_witness :
  (5000 <= 5000)%nat /\
  (0 < total (successors_of (table (build_model ["the cat saw the cat"; ""] ["the dog"; ""]))
                [None; None; None]))%Z /\
  exists s mc' g',
    output 5000 (build_model ["the cat saw the cat"; ""] ["the dog"; ""]) 5000 (mkReplay []) =
      Some (s, mc', g') /\
    main 5000 ["the cat saw the cat"; ""] ["the dog"; ""] (mkReplay []) =
      Printed (s +:+ newline +:+ newline).
Proof.
  assert (Hl : (5000 <= 5000)%nat) by lia.
  assert (Ht : (0 < total (successors_of (table (build_model ["the cat saw the cat"; ""] ["the dog"; ""]))
                              [None; None; None]))%Z) by (vm_compute; reflexivity).
  split_and!; [exact Hl|exact Ht|exact (main_prints 5000 _ _ (mkReplay []) Hl Ht)].
Defined.

(** The one-word source with a limit of 999 nested calls. *)
Lemma main_recursion_limit_witness :
  (999 < 5000)%nat /\
  successors_of (table (build_model one_word_source [])) [None; None; None] = [("a", 1%Z)] /\
  (0 < 1)%Z /\
  dead_end (table (build_model one_word_source [])) [None; None; Some "a"] /\
  main 999 one_word_source [] (mkReplay []) = RecursionError.
Proof.
  assert (Hl : (999 < 5000)%nat) by lia.
  assert (Hs : successors_of (table (build_model one_word_source [])) [None; None; None] = [("a", 1%Z)])
    by (vm_compute; reflexivity).
  assert (Hc : (0 < 1)%Z) by lia.
  assert (Hd : dead_end (table (build_model one_word_source [])) [None; None; Some "a"])
    by (apply Z.leb_le; vm_compute; reflexivity).
  split_and!; [exact Hl|exact Hs|exact Hc|exact Hd|].
  exact (main_recursion_limit 999 _ _ (mkReplay []) "a" 1 Hl Hs Hc Hd).
Defined.
